(** * Attention layers of tensor2tensor/trax: a shallow embedding

    Source: [tensor2tensor/trax/layers/attention.py].

    Tensors are modelled the way numpy stores them: a shape and the
    row-major (C order) list of elements.  The numpy operations the source
    calls ([reshape], [transpose], [pad], basic slicing, [concatenate],
    broadcasting [+], [tril], [ones], [zeros]) are given by their index-level
    meaning through [tabulate] and [get].  Python exceptions are values of
    [exn]; a call either returns ([Ok]) or raises ([Raise]). *)

From Stdlib Require Import String Floats List Arith ZArith Lia Bool.
Import ListNotations.

Set Implicit Arguments.

(** ** Python exceptions and results *)

Inductive exn : Type :=
| ValueError
| TypeError
| IndexError
| AssertionError
| ZeroDivisionError.

Inductive result (A : Type) : Type :=
| Ok (a : A)
| Raise (e : exn).

Arguments Ok {A} a.
Arguments Raise {A} e.

Definition rbind {A B : Type} (r : result A) (k : A -> result B) : result B :=
  match r with
  | Ok a => k a
  | Raise e => Raise e
  end.

Declare Scope result_scope.
Delimit Scope result_scope with result.
Notation "x <- c ;; k" := (rbind c (fun x => k))
  (at level 61, c at next level, right associativity) : result_scope.

Definition is_ok {A : Type} (r : result A) : bool :=
  match r with Ok _ => true | Raise _ => false end.

(** ** Shapes and row-major indexing *)

Definition numel (sh : list nat) : nat := fold_right Nat.mul 1 sh.

(** All multi-indices of a shape, in row-major order. *)
Fixpoint indices (sh : list nat) : list (list nat) :=
  match sh with
  | [] => [[]]
  | n :: sh' => flat_map (fun i => map (cons i) (indices sh')) (seq 0 n)
  end.

(** Position of a multi-index in the row-major data. *)
Fixpoint ravel (sh idx : list nat) : nat :=
  match sh, idx with
  | _ :: sh', i :: idx' => i * numel sh' + ravel sh' idx'
  | _, _ => 0
  end.

Fixpoint in_bounds (sh idx : list nat) : bool :=
  match sh, idx with
  | [], [] => true
  | n :: sh', i :: idx' => (i <? n) && in_bounds sh' idx'
  | _, _ => false
  end.


(** ** Python tuple indexing and slicing *)

(** [l[i]] for a Python int [i]: negative indices count from the end. *)
Definition py_index (n : nat) (i : Z) : option nat :=
  let j := if (i <? 0)%Z then (i + Z.of_nat n)%Z else i in
  if ((0 <=? j) && (j <? Z.of_nat n))%Z then Some (Z.to_nat j) else None.

Definition tuple_getitem {X : Type} (l : list X) (i : Z) : result X :=
  match py_index (length l) i with
  | Some j =>
      match nth_error l j with
      | Some x => Ok x
      | None => Raise IndexError
      end
  | None => Raise IndexError
  end.

(** Bound of a slice [a:b] on an axis of length [n]: negative bounds count
    from the end, and every bound is clamped to [0, n] (slices never raise). *)
Definition clamp_slice (n : nat) (i : Z) : nat :=
  Z.to_nat (if (i <? 0)%Z then Z.max 0 (i + Z.of_nat n) else Z.min i (Z.of_nat n)).

Definition slice_bounds (n : nat) (start stop : option Z) : nat * nat :=
  (match start with None => 0 | Some s => clamp_slice n s end,
   match stop with None => n | Some e => clamp_slice n e end).

(** ** Arrays *)

Record ndarray (A : Type) : Type := NdArray {
  shape : list nat;
  data : list A
}.

Arguments NdArray {A} shape data.

(** The element types the layers work on: numpy's [0] and [1] of the dtype,
    the truth value of an element (non-zero) and the dtype's [+]. *)
Class Dtype (A : Type) : Type := {
  zero : A;
  one : A;
  truthy : A -> bool;
  add : A -> A -> A;
  truthy_one : truthy one = true;
  truthy_zero : truthy zero = false
}.

(** Booleans: [+] on numpy booleans is logical or. *)
#[export] Instance bool_dtype : Dtype bool :=
  {| zero := false; one := true; truthy := fun b => b; add := orb;
     truthy_one := eq_refl; truthy_zero := eq_refl |}.

(** Integers. *)
#[export] Instance Z_dtype : Dtype Z :=
  {| zero := 0%Z; one := 1%Z; truthy := fun z => negb (z =? 0)%Z; add := Z.add;
     truthy_one := eq_refl; truthy_zero := eq_refl |}.

(** IEEE 754 binary64 floats (a NaN is not equal to zero, hence true). *)
#[export] Instance float_dtype : Dtype float :=
  {| zero := 0%float; one := 1%float;
     truthy := fun f => negb (PrimFloat.eqb f 0%float);
     add := PrimFloat.add;
     truthy_one := eq_refl; truthy_zero := eq_refl |}.

Section Arrays.
Context {A : Type}.

Definition wf (t : ndarray A) : Prop := length (data t) = numel (shape t).

Definition tabulate (sh : list nat) (f : list nat -> A) : ndarray A :=
  NdArray sh (map f (indices sh)).

(** [t[idx]] for a full multi-index; [None] stands for numpy's IndexError. *)
Definition get (t : ndarray A) (idx : list nat) : option A :=
  if in_bounds (shape t) idx then nth_error (data t) (ravel (shape t) idx)
  else None.

Definition getd (d : A) (t : ndarray A) (idx : list nat) : A :=
  match get t idx with
  | Some a => a
  | None => d
  end.

Definition np_shape_at (t : ndarray A) (axis : Z) : result nat :=
  tuple_getitem (shape t) axis.

(** *** np.reshape

    As numpy's [_fix_unknown_dimension]: at most one entry may be [-1]; it
    is inferred from the size of the array and the known dimensions, and the
    call fails when the known dimensions multiply to [0] or do not divide
    the size. *)
Definition known_dims (ns : list Z) : list nat :=
  map Z.to_nat (filter (fun z => (0 <=? z)%Z) ns).

Definition np_reshape (t : ndarray A) (newshape : list Z) : result (ndarray A) :=
  if existsb (fun z => (z <? -1)%Z) newshape then Raise ValueError
  else
    let s_known := numel (known_dims newshape) in
    let s_original := numel (shape t) in
    match length (filter (fun z => (z =? -1)%Z) newshape) with
    | 0 =>
        if s_original =? s_known
        then Ok (NdArray (map Z.to_nat newshape) (data t))
        else Raise ValueError
    | 1 =>
        if (s_known =? 0) || negb (s_original mod s_known =? 0)
        then Raise ValueError
        else Ok (NdArray
                   (map (fun z => if (z <? 0)%Z then s_original / s_known
                                  else Z.to_nat z) newshape)
                   (data t))
    | _ => Raise ValueError
    end.

(** *** np.transpose with an explicit permutation of the axes

    [np.transpose(t, axes)[idx] = t[idx']] with [idx'[axes[k]] = idx[k]]. *)
Fixpoint find_pos (a : nat) (axes : list nat) : nat :=
  match axes with
  | [] => 0
  | b :: axes' => if a =? b then 0 else S (find_pos a axes')
  end.

Definition is_axes_perm (rank : nat) (axes : list nat) : bool :=
  (length axes =? rank)
  && forallb (fun a => existsb (Nat.eqb a) axes) (seq 0 rank).

Definition transpose_index (axes idx : list nat) : list nat :=
  map (fun a => nth (find_pos a axes) idx 0) (seq 0 (length axes)).

Definition np_transpose (d : A) (t : ndarray A) (axes : list nat)
  : result (ndarray A) :=
  if is_axes_perm (length (shape t)) axes
  then Ok (tabulate (map (fun a => nth a (shape t) 0) axes)
             (fun idx => getd d t (transpose_index axes idx)))
  else Raise ValueError.

(** *** Basic indexing on axis 1 *)

(** [t[:, start:stop]] ([nidx = 2]) and [t[:, start:stop, :]] ([nidx = 3]):
    an array with fewer than [nidx] axes raises IndexError. *)
Definition getitem_slice1 (d : A) (nidx : nat) (t : ndarray A)
    (start stop : option Z) : result (ndarray A) :=
  match shape t with
  | n0 :: n1 :: rest =>
      if length (shape t) <? nidx then Raise IndexError
      else
        let (lo, hi) := slice_bounds n1 start stop in
        Ok (tabulate (n0 :: (hi - lo) :: rest)
              (fun idx =>
                 match idx with
                 | b :: i :: r => getd d t (b :: lo + i :: r)
                 | _ => d
                 end))
  | _ => Raise IndexError
  end.

(** [t[:, i]] for an integer [i]: axis 1 is removed. *)
Definition getitem_int1 (d : A) (t : ndarray A) (i : Z) : result (ndarray A) :=
  match shape t with
  | n0 :: n1 :: rest =>
      match py_index n1 i with
      | Some j =>
          Ok (tabulate (n0 :: rest)
                (fun idx =>
                   match idx with
                   | b :: r => getd d t (b :: j :: r)
                   | _ => d
                   end))
      | None => Raise IndexError
      end
  | _ => Raise IndexError
  end.

(** [t[:, np.newaxis]]: a new axis of length 1 after the first one. *)
Definition newaxis1 (t : ndarray A) : result (ndarray A) :=
  match shape t with
  | n0 :: rest => Ok (NdArray (n0 :: 1 :: rest) (data t))
  | [] => Raise IndexError
  end.

(** *** np.pad with [mode='constant'] *)
Fixpoint pad_shape (sh : list nat) (pw : list (nat * nat)) : list nat :=
  match sh, pw with
  | n :: sh', (before, after) :: pw' => (before + n + after) :: pad_shape sh' pw'
  | _, _ => []
  end.

(** The index in the unpadded array, or [None] inside the padding. *)
Fixpoint pad_source (sh : list nat) (pw : list (nat * nat)) (idx : list nat)
  : option (list nat) :=
  match sh, pw, idx with
  | n :: sh', (before, _) :: pw', i :: idx' =>
      if (before <=? i) && (i <? before + n)
      then option_map (cons (i - before)) (pad_source sh' pw' idx')
      else None
  | _, _, _ => Some []
  end.

Definition np_pad (t : ndarray A) (pad_widths : list (nat * nat))
    (constant_values : A) : result (ndarray A) :=
  if length pad_widths =? length (shape t)
  then Ok (tabulate (pad_shape (shape t) pad_widths)
             (fun idx =>
                match pad_source (shape t) pad_widths idx with
                | Some src => getd constant_values t src
                | None => constant_values
                end))
  else Raise ValueError.

(** *** np.concatenate along axis 1 *)

Definition dim1 (t : ndarray A) : nat := nth 1 (shape t) 0.

Fixpoint shape_eqb (sh1 sh2 : list nat) : bool :=
  match sh1, sh2 with
  | [], [] => true
  | a :: r1, b :: r2 => (a =? b) && shape_eqb r1 r2
  | _, _ => false
  end.

Definition same_off_axis1 (sh1 sh2 : list nat) : bool :=
  match sh1, sh2 with
  | a :: _ :: r1, b :: _ :: r2 => (a =? b) && shape_eqb r1 r2
  | _, _ => false
  end.

Definition total_dim1 (ts : list (ndarray A)) : nat :=
  fold_right (fun t s => dim1 t + s) 0 ts.

(** Element [(b, i, r)] of the concatenation: walk the arrays, moving [i]
    past each array it does not fall in. *)
Fixpoint concat_get (d : A) (ts : list (ndarray A)) (b i : nat) (r : list nat) : A :=
  match ts with
  | [] => d
  | t :: ts' =>
      if i <? dim1 t then getd d t (b :: i :: r)
      else concat_get d ts' b (i - dim1 t) r
  end.

Definition np_concatenate1 (d : A) (ts : list (ndarray A)) : result (ndarray A) :=
  match ts with
  | [] => Raise ValueError
  | t0 :: _ =>
      match shape t0 with
      | n0 :: _ :: rest =>
          if forallb (fun t => same_off_axis1 (shape t0) (shape t)) ts
          then Ok (tabulate (n0 :: total_dim1 ts :: rest)
                     (fun idx =>
                        match idx with
                        | b :: i :: r => concat_get d ts b i r
                        | _ => d
                        end))
          else Raise ValueError
      | _ => Raise ValueError
      end
  end.

(** *** Broadcasting *)

(** Shapes are aligned on their last axis; two lengths are compatible when
    they are equal or one of them is 1. *)
Fixpoint broadcast_rev (a b : list nat) : option (list nat) :=
  match a, b with
  | [], _ => Some b
  | _, [] => Some a
  | x :: a', y :: b' =>
      match broadcast_rev a' b' with
      | Some r =>
          if x =? y then Some (x :: r)
          else if x =? 1 then Some (y :: r)
          else if y =? 1 then Some (x :: r)
          else None
      | None => None
      end
  end.

Definition broadcast_shapes (a b : list nat) : option (list nat) :=
  option_map (@rev nat) (broadcast_rev (rev a) (rev b)).

(** Index into an operand of shape [sh] for the index [idx] of the result. *)
Definition bcast_index (sh idx : list nat) : list nat :=
  map (fun p => if fst p =? 1 then 0 else snd p)
      (combine sh (skipn (length idx - length sh) idx)).

End Arrays.

Section TypedArrays.
Context {A : Type} {dt : Dtype A}.

Definition get0 (t : ndarray A) (idx : list nat) : A := getd zero t idx.

Definition np_ones (sh : list nat) : ndarray A := tabulate sh (fun _ => one).
Definition np_zeros (sh : list nat) : ndarray A := tabulate sh (fun _ => zero).
Definition np_zeros_like (t : ndarray A) : ndarray A := np_zeros (shape t).

(** [np.tril(m, k)]: [where(tri(N, M, k), m, 0)] on the last two axes, with
    [tri(N, M, k)[i, j]] true iff [j <= i + k]. *)
Definition np_tril (m : ndarray A) (k : Z) : ndarray A :=
  tabulate (shape m)
    (fun idx =>
       match rev idx with
       | j :: i :: _ =>
           if (Z.of_nat j <=? Z.of_nat i + k)%Z then get0 m idx else zero
       | _ => get0 m idx
       end).

(** [a + b] with broadcasting. *)
Definition np_add (a b : ndarray A) : result (ndarray A) :=
  match broadcast_shapes (shape a) (shape b) with
  | Some sh =>
      Ok (tabulate sh
            (fun idx => add (get0 a (bcast_index (shape a) idx))
                            (get0 b (bcast_index (shape b) idx))))
  | None => Raise ValueError
  end.

Definition count_true (t : ndarray A) : nat :=
  length (filter truthy (data t)).

End TypedArrays.

(** ** The layers of [attention.py] that work on shapes and indices *)

(** A layer input is one array or a list (or tuple) of chunks, told apart in
    the source by [isinstance(x, (list, tuple))]. *)
Inductive layer_input (A : Type) : Type :=
| Single (x : ndarray A)
| Chunked (xs : list (ndarray A)).

Arguments Single {A} x.
Arguments Chunked {A} xs.

(** [l[i] = v] on a Python list. *)
Definition list_setitem {X : Type} (l : list X) (i : nat) (v : X) : result (list X) :=
  if i <? length l then Ok (firstn i l ++ v :: skipn (S i) l)
  else Raise IndexError.

Section Layers.
Context {A : Type} {dt : Dtype A}.
Local Open Scope result_scope.

(** [CausalMask]:
<<
size = x.shape[axis]
return onp.tril(onp.ones((1, size, size), dtype=x.dtype), k=0)
>> *)
Definition CausalMask (x : ndarray A) (axis : Z) : result (ndarray A) :=
  size <- np_shape_at x axis ;;
  Ok (np_tril (np_ones [1; size; size]) 0).

(** [PaddingMask]:
<<
return np.reshape(x != pad, (x.shape[0], 1, 1, x.shape[-1]))
>>
    [neq] is the dtype's [!=]. *)
Definition PaddingMask (neq : A -> A -> bool) (x : ndarray A) (pad : A)
  : result (ndarray bool) :=
  let differs := NdArray (shape x) (map (fun a => neq a pad) (data x)) in
  batch_size <- np_shape_at x 0 ;;
  length <- np_shape_at x (-1) ;;
  np_reshape differs [Z.of_nat batch_size; 1%Z; 1%Z; Z.of_nat length].

(** [EncoderDecoderMask]:
<<
(padding_mask, decoder_input) = x
padding_mask = np.reshape(
    padding_mask, (padding_mask.shape[0], 1, 1, padding_mask.shape[-1]))
return padding_mask + np.zeros((1, 1, decoder_input.shape[1], 1))
>>
    The sum has the dtype [A] of [np.zeros]; [promote] is numpy's conversion
    of the mask's elements to it (for a boolean mask, [True] to [1.0] and
    [False] to [0.0]). *)
Definition astype {M : Type} (promote : M -> A) (t : ndarray M) : ndarray A :=
  NdArray (shape t) (map promote (data t)).

Definition EncoderDecoderMask {M X : Type} (promote : M -> A)
    (padding_mask : ndarray M) (decoder_input : ndarray X)
  : result (ndarray A) :=
  batch_size <- np_shape_at padding_mask 0 ;;
  input_length <- np_shape_at padding_mask (-1) ;;
  padding_mask' <- np_reshape padding_mask
                     [Z.of_nat batch_size; 1%Z; 1%Z; Z.of_nat input_length] ;;
  target_length <- np_shape_at decoder_input 1 ;;
  np_add (astype promote padding_mask') (np_zeros [1; 1; target_length; 1]).

(** [PositionalEncoding]:
<<
if not isinstance(x, (list, tuple)):  # non-chunked inputs
  symbol_size = np.shape(x)[1]
  return x + params[:, :symbol_size, :]
offset = 0
results = []
for chunk in x:
  symbol_size = np.shape(chunk)[1]
  results.append(chunk + params[:, offset:offset + symbol_size, :])
  offset += symbol_size
return results
>> *)
Fixpoint positional_encoding_loop (params : ndarray A) (xs : list (ndarray A))
    (offset : nat) (results : list (ndarray A)) : result (list (ndarray A)) :=
  match xs with
  | [] => Ok results
  | chunk :: xs' =>
      symbol_size <- np_shape_at chunk 1 ;;
      table <- getitem_slice1 zero 3 params
                 (Some (Z.of_nat offset))
                 (Some (Z.of_nat offset + Z.of_nat symbol_size)%Z) ;;
      r <- np_add chunk table ;;
      positional_encoding_loop params xs' (offset + symbol_size) (results ++ [r])
  end.

Definition PositionalEncoding (x : layer_input A) (params : ndarray A)
  : result (layer_input A) :=
  match x with
  | Single x =>
      symbol_size <- np_shape_at x 1 ;;
      table <- getitem_slice1 zero 3 params None (Some (Z.of_nat symbol_size)) ;;
      r <- np_add x table ;;
      Ok (Single r)
  | Chunked xs =>
      results <- positional_encoding_loop params xs 0 [] ;;
      Ok (Chunked results)
  end.

(** [ShiftRight]:
<<
if not isinstance(x, (list, tuple)):  # non-chunked inputs
  pad_widths = [(0, 0)] * len(x.shape)
  pad_widths[1] = (1, 0)  # Padding on axis=1
  padded = np.pad(x, pad_widths, mode='constant',
                  constant_values=x.dtype.type(0))
  return padded[:, :-1]
padded = []
last_value = np.zeros_like(x[0][:, -1])
for chunk in x:
  padded_chunk = np.concatenate([last_value[:, np.newaxis], chunk], axis=1)
  last_value = chunk[:, -1]
  padded.append(padded_chunk[:, :-1])
return padded
>> *)
Fixpoint shift_right_loop (xs : list (ndarray A)) (last_value : ndarray A)
    (padded : list (ndarray A)) : result (list (ndarray A)) :=
  match xs with
  | [] => Ok padded
  | chunk :: xs' =>
      first <- newaxis1 last_value ;;
      padded_chunk <- np_concatenate1 zero [first; chunk] ;;
      last_value' <- getitem_int1 zero chunk (-1) ;;
      r <- getitem_slice1 zero 2 padded_chunk None (Some (-1)%Z) ;;
      shift_right_loop xs' last_value' (padded ++ [r])
  end.

Definition ShiftRight (x : layer_input A) : result (layer_input A) :=
  match x with
  | Single x =>
      pad_widths <- list_setitem (repeat (0, 0) (length (shape x))) 1 (1, 0) ;;
      padded <- np_pad x pad_widths zero ;;
      r <- getitem_slice1 zero 2 padded None (Some (-1)%Z) ;;
      Ok (Single r)
  | Chunked xs =>
      x0 <- tuple_getitem xs 0 ;;
      l0 <- getitem_int1 zero x0 (-1) ;;
      padded <- shift_right_loop xs (np_zeros_like l0) [] ;;
      Ok (Chunked padded)
  end.

(** The head bookkeeping of [PureMultiHeadedAttention]:
<<
feature_depth = q.shape[-1]
assert feature_depth % num_heads == 0
head_depth = feature_depth // num_heads
nbatch = np.shape(q)[0]
def SplitHeads(x):
  return np.transpose(
      np.reshape(x, (nbatch, -1, num_heads, head_depth)), (0, 2, 1, 3))
def JoinHeads(x):
  return np.reshape(
      np.transpose(x, (0, 2, 1, 3)), (nbatch, -1, num_heads*head_depth))
>>
    [%] and [//] are Python's floor modulo and division, which [Z.modulo]
    and [Z.div] are; both raise ZeroDivisionError on a zero divisor. *)
Record heads : Type := Heads {
  nbatch : nat;
  num_heads : Z;
  head_depth : Z
}.

Definition head_setup (q : ndarray A) (num_heads : Z) : result heads :=
  feature_depth <- np_shape_at q (-1) ;;
  if (num_heads =? 0)%Z then Raise ZeroDivisionError
  else if negb (Z.of_nat feature_depth mod num_heads =? 0)%Z then Raise AssertionError
  else
    let head_depth := (Z.of_nat feature_depth / num_heads)%Z in
    nbatch <- np_shape_at q 0 ;;
    Ok (Heads nbatch num_heads head_depth).

Definition SplitHeads (h : heads) (x : ndarray A) : result (ndarray A) :=
  y <- np_reshape x [Z.of_nat (nbatch h); (-1)%Z; num_heads h; head_depth h] ;;
  np_transpose zero y [0; 2; 1; 3].

Definition JoinHeads (h : heads) (x : ndarray A) : result (ndarray A) :=
  y <- np_transpose zero x [0; 2; 1; 3] ;;
  np_reshape y [Z.of_nat (nbatch h); (-1)%Z; (num_heads h * head_depth h)%Z].

End Layers.

(** ** The declared output shapes and the positional-encoding table *)

(** Shapes that a layer declares for its result, as functions of the shapes
    of its inputs.
<<
@base.layer(output_shape=lambda shape, axis=-1: (1, shape[axis], shape[axis]))
def CausalMask(x, params, axis=-1, **kwargs):

@base.layer(output_shape=lambda shape, pad=0: (shape[0], 1, 1, shape[-1]))
def PaddingMask(x, params, pad=0, **kwargs):

def EncoderDecoderMaskShape(inputs):
  (padding_mask_shape, decoder_input_shape) = inputs
  batch_size = padding_mask_shape[0]
  input_length = padding_mask_shape[-1]
  target_length = decoder_input_shape[1]
  return (batch_size, 1, target_length, input_length)
>> *)
Definition CausalMaskShape (sh : list nat) (axis : Z) : result (list nat) :=
  (size <- tuple_getitem sh axis ;;
   size' <- tuple_getitem sh axis ;;
   Ok [1; size; size'])%result.

Definition PaddingMaskShape (sh : list nat) : result (list nat) :=
  (batch_size <- tuple_getitem sh 0 ;;
   length <- tuple_getitem sh (-1) ;;
   Ok [batch_size; 1; 1; length])%result.

Definition EncoderDecoderMaskShape (padding_mask_shape decoder_input_shape : list nat)
  : result (list nat) :=
  (batch_size <- tuple_getitem padding_mask_shape 0 ;;
   input_length <- tuple_getitem padding_mask_shape (-1) ;;
   target_length <- tuple_getitem decoder_input_shape 1 ;;
   Ok [batch_size; 1; target_length; input_length])%result.

(** The shape argument of a parameter initialiser: the shape of one input, or
    the list of the shapes of its chunks. *)
Inductive input_shape : Type :=
| OneShape (sh : list nat)
| ChunkShapes (shs : list (list nat)).

(** The scalar operations the table is built from: the conversion of the
    integers of [onp.arange], the constant [-(onp.log(10000.0) / d)] for a
    feature depth [d], the float product, [exp], [sin], [cos], and the
    rounding done when a float64 is stored in the float32 table. *)
Class TableOps (A : Type) : Type := {
  float_of_int : nat -> A;
  neg_log_scale : nat -> A;
  table_mul : A -> A -> A;
  table_exp : A -> A;
  table_sin : A -> A;
  table_cos : A -> A;
  to_float32 : A -> A
}.

Section Table.
Context {A : Type} {dt : Dtype A} {ops : TableOps A}.
Local Open Scope result_scope.

(** [a * b] with broadcasting. *)
Definition np_multiply (a b : ndarray A) : result (ndarray A) :=
  match broadcast_shapes (shape a) (shape b) with
  | Some sh =>
      Ok (tabulate sh
            (fun idx => table_mul (get0 a (bcast_index (shape a) idx))
                                  (get0 b (bcast_index (shape b) idx))))
  | None => Raise ValueError
  end.

Definition map_elements (f : A -> A) (t : ndarray A) : ndarray A :=
  NdArray (shape t) (map f (data t)).

(** [onp.arange(0, stop, step)] as floats. *)
Definition np_arange_step (stop step : nat) : ndarray A :=
  let n := (stop + step - 1) / step in
  NdArray [n] (map (fun i => float_of_int (i * step)) (seq 0 n)).

(** [len(range(start, n, 2))] *)
Definition strided_count (n start : nat) : nat := (n - start + 1) / 2.

(** [pe[:, start::2] = value] on a table with two axes: the value is
    broadcast to the shape of the selected columns, which fails when the
    shapes do not agree, and stored with the table's dtype.  (The value has
    two axes in the source; numpy would also accept further leading axes of
    length 1.) *)
Definition setitem_columns (pe : ndarray A) (start : nat) (value : ndarray A)
  : result (ndarray A) :=
  match shape pe with
  | [rows; cols] =>
      let target := [rows; strided_count cols start] in
      match broadcast_shapes (shape value) target with
      | Some sh =>
          if shape_eqb sh target
          then Ok (tabulate [rows; cols]
                     (fun idx =>
                        match idx with
                        | [p; j] =>
                            if (start <=? j) && Nat.even (j - start)
                            then to_float32
                                   (get0 value
                                      (bcast_index (shape value) [p; (j - start) / 2]))
                            else get0 pe [p; j]
                        | _ => zero
                        end))
          else Raise ValueError
      | None => Raise ValueError
      end
  | _ => Raise IndexError
  end.

(** [_positional_encoding_new_params]:
<<
is_chunked = isinstance(input_shape[0], (list, tuple))
feature_depth = input_shape[0][-1] if is_chunked else input_shape[-1]
pe = onp.zeros((max_len, feature_depth), dtype=onp.float32)
position = onp.arange(0, max_len)[:, onp.newaxis]
div_term = onp.exp(
    onp.arange(0, feature_depth, 2) * -(onp.log(10000.0) / feature_depth))
pe[:, 0::2] = onp.sin(position * div_term)
pe[:, 1::2] = onp.cos(position * div_term)
pe = pe[onp.newaxis, :, :]  # [1, max_len, feature_depth]
return np.array(pe)
>> *)
Definition feature_depth_of (s : input_shape) : result nat :=
  match s with
  | OneShape sh =>
      _ <- tuple_getitem sh 0 ;;
      tuple_getitem sh (-1)
  | ChunkShapes shs =>
      first <- tuple_getitem shs 0 ;;
      tuple_getitem first (-1)
  end.

Definition positional_encoding_new_params (s : input_shape) (max_len : nat)
  : result (ndarray A) :=
  feature_depth <- feature_depth_of s ;;
  let pe := np_zeros [max_len; feature_depth] in
  let position := NdArray [max_len; 1] (map float_of_int (seq 0 max_len)) in
  let div_term :=
    map_elements table_exp
      (map_elements (fun a => table_mul a (neg_log_scale feature_depth))
         (np_arange_step feature_depth 2)) in
  angles <- np_multiply position div_term ;;
  pe <- setitem_columns pe 0 (map_elements table_sin angles) ;;
  angles' <- np_multiply position div_term ;;
  pe <- setitem_columns pe 1 (map_elements table_cos angles') ;;
  Ok (NdArray (1 :: shape pe) (data pe)).

(** The angle of position [p] for the pair of columns [2 i] and [2 i + 1]. *)
Definition table_angle (feature_depth p i : nat) : A :=
  table_mul (float_of_int p)
    (table_exp (table_mul (float_of_int (i * 2)) (neg_log_scale feature_depth))).

End Table.

(** ** Dot-product attention *)

(** The calls into the numeric backend, in the order they are made: every
    call of a function of [np] or [backend], and every arithmetic operator
    applied to arrays ([/] and [-]).  Reading an attribute ([x.shape]) and
    arithmetic or comparisons on Python ints and floats are not backend
    calls.  A run of [DotProductAttention] or [PureMultiHeadedAttention]
    records them, so that what has been computed when an exception is raised
    can be read off. *)
Inductive event : Type :=
| EvShape
| EvReshape
| EvTranspose
| EvSwapaxes
| EvMatmul
| EvSqrt
| EvDivide
| EvWhere
| EvLogsumexp
| EvSubtract
| EvExp
| EvBernoulli.

(** A computation that logs its backend calls and returns or raises. *)
Definition traced (X : Type) : Type := list event -> list event * result X.

Definition tret {X : Type} (x : X) : traced X := fun tr => (tr, Ok x).

Definition traise {X : Type} (e : exn) : traced X := fun tr => (tr, Raise e).

Definition tbind {X Y : Type} (m : traced X) (k : X -> traced Y) : traced Y :=
  fun tr =>
    match m tr with
    | (tr', Ok x) => k x tr'
    | (tr', Raise e) => (tr', Raise e)
    end.

(** A backend call: it is logged, then it returns or raises. *)
Definition call {X : Type} (ev : event) (r : result X) : traced X :=
  fun tr => (tr ++ [ev], r).

(** A Python-level step that is not a backend call. *)
Definition lift {X : Type} (r : result X) : traced X := fun tr => (tr, r).

Declare Scope traced_scope.
Delimit Scope traced_scope with traced.
Notation "x <- c ;; k" := (tbind c (fun x => k))
  (at level 61, c at next level, right associativity) : traced_scope.

(** The numeric kernels of [numpy], [backend.logsumexp] and
    [backend.random.bernoulli], which are not part of [attention.py]: the
    scalar operations of the float dtype, and matrix product, log-sum-exp over
    the last axis ([axis=-1, keepdims=True]) and Bernoulli sampling, each of
    which may raise. *)
Class Backend (A K : Type) : Type := {
  fsub : A -> A -> A;
  fdiv : A -> A -> A;
  fexp : A -> A;
  fsqrt : nat -> A;
  of_float : float -> A;
  np_matmul : ndarray A -> ndarray A -> result (ndarray A);
  logsumexp : ndarray A -> result (ndarray A);
  random_bernoulli : option K -> float -> list nat -> result (ndarray bool)
}.

(** [dropout >= bound] on a Python value that is a float or [None]; Python 3
    raises TypeError when [None] is compared with a float. *)
Definition py_ge (dropout : option float) (bound : float) : result bool :=
  match dropout with
  | Some d => Ok (PrimFloat.leb bound d)
  | None => Raise TypeError
  end.

Section Attention.
Context {A K C : Type} {dt : Dtype A} {dc : Dtype C} {be : Backend A K}.

Definition swap_last2 {X : Type} (l : list X) : list X :=
  match rev l with
  | a :: b :: r => rev (b :: a :: r)
  | _ => l
  end.

(** [np.swapaxes(t, -1, -2)] *)
Definition np_swapaxes_last2 (t : ndarray A) : result (ndarray A) :=
  if length (shape t) <? 2 then Raise ValueError
  else Ok (tabulate (swap_last2 (shape t)) (fun idx => get0 t (swap_last2 idx))).

Definition map_array (f : A -> A) (t : ndarray A) : ndarray A :=
  NdArray (shape t) (map f (data t)).

(** [a - b] with broadcasting. *)
Definition np_subtract (a b : ndarray A) : result (ndarray A) :=
  match broadcast_shapes (shape a) (shape b) with
  | Some sh =>
      Ok (tabulate sh
            (fun idx => fsub (get0 a (bcast_index (shape a) idx))
                             (get0 b (bcast_index (shape b) idx))))
  | None => Raise ValueError
  end.

(** [np.where(cond, x, y)] for an array [x] and a scalar [y]. *)
Definition np_where {B : Type} {db : Dtype B} (cond : ndarray B) (x : ndarray A) (y : A)
  : result (ndarray A) :=
  match broadcast_shapes (shape cond) (shape x) with
  | Some sh =>
      Ok (tabulate sh
            (fun idx =>
               if truthy (get0 cond (bcast_index (shape cond) idx))
               then get0 x (bcast_index (shape x) idx)
               else y))
  | None => Raise ValueError
  end.

Local Open Scope traced_scope.

(** The score, masking and softmax part, lines 111 to 116:
<<
depth = np.shape(query)[-1]
dots = np.matmul(query, np.swapaxes(key, -1, -2)) / np.sqrt(depth)
if mask is not None:
  dots = np.where(mask, dots, -1e9)
dots = np.exp(dots - backend.logsumexp(dots, axis=-1, keepdims=True))
>> *)
Definition attention_weights (query key : ndarray A) (mask : option (ndarray C))
  : traced (ndarray A) :=
  depth <- call EvShape (np_shape_at query (-1)) ;;
  key_t <- call EvSwapaxes (np_swapaxes_last2 key) ;;
  qk <- call EvMatmul (np_matmul query key_t) ;;
  root <- call EvSqrt (Ok (fsqrt depth)) ;;
  dots <- call EvDivide (Ok (map_array (fun a => fdiv a root) qk)) ;;
  dots <- match mask with
          | Some m => call EvWhere (np_where m dots (of_float (-1e9)%float))
          | None => tret dots
          end ;;
  lse <- call EvLogsumexp (logsumexp dots) ;;
  diff <- call EvSubtract (np_subtract dots lse) ;;
  call EvExp (Ok (map_array fexp diff)).

(** [DotProductAttention], lines 117 to 123 after the part above:
<<
if dropout >= 1.0:
  raise ValueError('Dropout rates must be lower than 1.')
if dropout is not None and dropout > 0.0 and mode == 'train':
  keep = backend.random.bernoulli(rng, 1.0 - dropout, dots.shape)
  dots = np.where(keep, dots / (1.0 - dropout), 0)
out = np.matmul(dots, value)
return out
>> *)
Definition apply_dropout (dots : ndarray A) (dropout : option float)
    (mode : string) (rng : option K) : traced (ndarray A) :=
  match dropout with
  | Some d =>
      if PrimFloat.ltb 0 d && String.eqb mode "train"
      then
        keep <- call EvBernoulli
                  (random_bernoulli rng (1 - d)%float (shape dots)) ;;
        scaled <- call EvDivide
                    (Ok (map_array (fun a => fdiv a (of_float (1 - d)%float)) dots)) ;;
        call EvWhere (np_where keep scaled zero)
      else tret dots
  | None => tret dots
  end.

Definition DotProductAttention (query key value : ndarray A)
    (mask : option (ndarray C)) (dropout : option float) (mode : string)
    (rng : option K) : traced (ndarray A) :=
  dots <- attention_weights query key mask ;;
  too_big <- lift (py_ge dropout 1%float) ;;
  if too_big : bool then traise ValueError
  else
    dots <- apply_dropout dots dropout mode rng ;;
    call EvMatmul (np_matmul dots value).

(** The attention of the specification with its dropout step (step 4) left
    out: scores, masking, softmax, then the weighted sum. *)
Definition attention_without_dropout (query key value : ndarray A)
    (mask : option (ndarray C)) : traced (ndarray A) :=
  weights <- attention_weights query key mask ;;
  call EvMatmul (np_matmul weights value).

(** [PureMultiHeadedAttention]:
<<
rng = kwargs.get('rng', None)
(q, k, v), mask = x
feature_depth = q.shape[-1]
assert feature_depth % num_heads == 0
head_depth = feature_depth // num_heads
nbatch = np.shape(q)[0]
def SplitHeads(x):
  return np.transpose(
      np.reshape(x, (nbatch, -1, num_heads, head_depth)), (0, 2, 1, 3))
def JoinHeads(x):
  return np.reshape(
      np.transpose(x, (0, 2, 1, 3)), (nbatch, -1, num_heads*head_depth))
res = JoinHeads(
    DotProductAttention(
        SplitHeads(q), SplitHeads(k), SplitHeads(v), mask,
        dropout=dropout, mode=mode, rng=rng))
return res, mask  # Keep the mask.
>>
    The head bookkeeping, [SplitHeads] and [JoinHeads] are those of
    [head_setup], [SplitHeads] and [JoinHeads] above, here with their backend
    calls recorded: [np.shape(q)] after the assertion and the division, and
    [np.reshape] and [np.transpose] in the order they are evaluated. *)
Definition traced_head_setup (q : ndarray A) (num_heads : Z) : traced heads :=
  feature_depth <- lift (np_shape_at q (-1)) ;;
  if (num_heads =? 0)%Z then traise ZeroDivisionError
  else if negb (Z.of_nat feature_depth mod num_heads =? 0)%Z then traise AssertionError
  else
    let head_depth := (Z.of_nat feature_depth / num_heads)%Z in
    nbatch <- call EvShape (np_shape_at q 0) ;;
    tret (Heads nbatch num_heads head_depth).

Definition traced_split_heads (h : heads) (x : ndarray A) : traced (ndarray A) :=
  y <- call EvReshape
         (np_reshape x [Z.of_nat (nbatch h); (-1)%Z; num_heads h; head_depth h]) ;;
  call EvTranspose (np_transpose zero y [0; 2; 1; 3]).

Definition traced_join_heads (h : heads) (x : ndarray A) : traced (ndarray A) :=
  y <- call EvTranspose (np_transpose zero x [0; 2; 1; 3]) ;;
  call EvReshape
    (np_reshape y [Z.of_nat (nbatch h); (-1)%Z; (num_heads h * head_depth h)%Z]).

Definition PureMultiHeadedAttention (q k v : ndarray A)
    (mask : option (ndarray C)) (num_heads : Z) (dropout : option float)
    (mode : string) (rng : option K)
  : traced (ndarray A * option (ndarray C)) :=
  h <- traced_head_setup q num_heads ;;
  q' <- traced_split_heads h q ;;
  k' <- traced_split_heads h k ;;
  v' <- traced_split_heads h v ;;
  out <- DotProductAttention q' k' v' mask dropout mode rng ;;
  res <- traced_join_heads h out ;;
  tret (res, mask).

End Attention.

(** ** An example backend on binary64 floats

    Used to run the layers on concrete inputs.  Subtraction, division, square
    root and the matrix product are those of IEEE 754 binary64.  Rocq has no
    primitive exponential or logarithm: [exp_approx] and [log_approx] stand in
    for them, and are exact where the examples use them ([exp 0 = 1] and
    [log 1 = 0]).  [example_matmul] does not broadcast the leading axes of its
    operands.  No property below depends on this instance. *)

Definition float_of_nat (n : nat) : float :=
  PrimFloat.of_uint63 (Uint63.of_Z (Z.of_nat n)).

Fixpoint iterate {X : Type} (n : nat) (f : X -> X) (x : X) : X :=
  match n with
  | 0 => x
  | S n' => iterate n' f (f x)
  end.

(** [(1 + x / 2^10)^(2^10)] *)
Definition exp_approx (x : float) : float :=
  iterate 10 (fun y => y * y)%float (1 + x / 1024)%float.

(** Halley's iteration for [exp z = y], from [z = 0]. *)
Definition log_approx (y : float) : float :=
  iterate 8 (fun z => let e := exp_approx z in z + 2 * (y - e) / (y + e))%float
    0%float.

Definition float_sum (l : list float) : float :=
  fold_left PrimFloat.add l 0%float.

Definition float_max (l : list float) : float :=
  match l with
  | [] => 0%float
  | a :: l' => fold_left (fun m b => if PrimFloat.ltb m b then b else m) l' a
  end.

(** [max + log (sum (exp (a - max)))] *)
Definition lse_row (row : list float) : float :=
  let m := float_max row in
  (m + log_approx (float_sum (map (fun a => exp_approx (a - m)) row)))%float.

Definition split_last2 (l : list nat) : option (list nat * nat * nat) :=
  match rev l with
  | b :: a :: r => Some (rev r, a, b)
  | _ => None
  end.

Definition example_matmul (a b : ndarray float) : result (ndarray float) :=
  match split_last2 (shape a), split_last2 (shape b) with
  | Some (pa, n, k), Some (pb, k', m) =>
      if shape_eqb pa pb && (k =? k')
      then Ok (tabulate (pa ++ [n; m])
                 (fun idx =>
                    match split_last2 idx with
                    | Some (p, i, j) =>
                        float_sum
                          (map (fun l => (get0 a (p ++ [i; l]) * get0 b (p ++ [l; j]))%float)
                             (seq 0 k))
                    | None => 0%float
                    end))
      else Raise ValueError
  | _, _ => Raise ValueError
  end.

Definition example_logsumexp (t : ndarray float) : result (ndarray float) :=
  match rev (shape t) with
  | n :: r =>
      if n =? 0 then Raise ValueError
      else Ok (tabulate (rev (1 :: r))
                 (fun idx =>
                    lse_row (map (fun l => get0 t (removelast idx ++ [l])) (seq 0 n))))
  | [] => Raise ValueError
  end.

(** A value in [0, 1) from a key and a position. *)
Definition example_uniform (key i : nat) : float :=
  (float_of_nat ((key * 61 + i * 37 + 11) mod 100) / 100)%float.

Definition example_bernoulli (rng : option nat) (p : float) (sh : list nat)
  : result (ndarray bool) :=
  match rng with
  | Some key =>
      Ok (tabulate sh (fun idx => PrimFloat.ltb (example_uniform key (ravel sh idx)) p))
  | None => Raise TypeError
  end.

#[export] Instance example_backend : Backend float nat :=
  {| fsub := PrimFloat.sub;
     fdiv := PrimFloat.div;
     fexp := exp_approx;
     fsqrt := fun n => PrimFloat.sqrt (float_of_nat n);
     of_float := fun f => f;
     np_matmul := example_matmul;
     logsumexp := example_logsumexp;
     random_bernoulli := example_bernoulli |}.

(** ** Symbolic table elements

    The table operations as the syntax of the expression they compute, so
    that the table can be built on concrete sizes with nothing rounded or
    approximated. *)
Inductive sym : Type :=
| SZero
| SOne
| SInt (n : nat)
| SNegLogScale (feature_depth : nat)
| SAdd (a b : sym)
| SMul (a b : sym)
| SExp (a : sym)
| SSin (a : sym)
| SCos (a : sym)
| SFloat32 (a : sym).

#[export] Instance sym_dtype : Dtype sym :=
  {| zero := SZero; one := SOne;
     truthy := fun s => match s with SZero => false | _ => true end;
     add := SAdd;
     truthy_one := eq_refl; truthy_zero := eq_refl |}.

#[export] Instance sym_table_ops : TableOps sym :=
  {| float_of_int := SInt;
     neg_log_scale := SNegLogScale;
     table_mul := SMul;
     table_exp := SExp;
     table_sin := SSin;
     table_cos := SCos;
     to_float32 := SFloat32 |}.

(** ** Closed forms used to state the properties *)

Section ClosedForms.
Context {A : Type} {dt : Dtype A}.

(** The lower triangle of ones, element by element. *)
Definition lower_triangle (idx : list nat) : A :=
  match idx with
  | [_; i; j] => if j <=? i then one else zero
  | _ => zero
  end.

(** *** Right shift, element by element

    What a shifted chunk holds at time step 0: zero for the first chunk,
    the last time step of the chunk before it ([prev]) otherwise. *)
Definition last_step (prev : option (ndarray A)) (br : list nat) : A :=
  match prev, br with
  | Some p, b :: r => get0 p (b :: (dim1 p - 1) :: r)
  | _, _ => zero
  end.

Definition shifted_chunk (prev : option (ndarray A)) (x : ndarray A)
    (idx : list nat) : A :=
  match idx with
  | b :: i :: r =>
      if i =? 0 then last_step prev (b :: r) else get0 x (b :: (i - 1) :: r)
  | _ => zero
  end.

Fixpoint shifted_chunks (prev : option (ndarray A)) (xs : list (ndarray A))
  : list (ndarray A) :=
  match xs with
  | [] => []
  | x :: xs' =>
      tabulate (shape x) (shifted_chunk prev x) :: shifted_chunks (Some x) xs'
  end.

(** *** Right shift of the concatenation, split again

    The chunks are concatenated along the time axis, the whole sequence is
    shifted as one array, and the result is cut at the chunk boundaries. *)
Local Open Scope result_scope.

Fixpoint resplit (t : ndarray A) (lens : list nat) (offset : nat)
  : result (list (ndarray A)) :=
  match lens with
  | [] => Ok []
  | len :: lens' =>
      c <- getitem_slice1 zero 2 t (Some (Z.of_nat offset))
             (Some (Z.of_nat offset + Z.of_nat len)%Z) ;;
      cs <- resplit t lens' (offset + len) ;;
      Ok (c :: cs)
  end.

Definition shift_of_concatenation (xs : list (ndarray A))
  : result (layer_input A) :=
  whole <- np_concatenate1 zero xs ;;
  s <- ShiftRight (Single whole) ;;
  match s with
  | Single s' =>
      cs <- resplit s' (map dim1 xs) 0 ;;
      Ok (Chunked cs)
  | Chunked _ => Raise TypeError
  end.

(** A chunk of a sequence of arrays of shape [(batch, length) ++ rest]
    with at least one time step. *)
Definition is_chunk (batch : nat) (rest : list nat) (x : ndarray A) : Prop :=
  exists len, 1 <= len /\ shape x = batch :: len :: rest.

(** The chunk before a position in the list, if there is one. *)
Definition before (pre : list (ndarray A)) (prev : option (ndarray A)) : Prop :=
  (pre = [] /\ prev = None) \/ (exists pre' p, pre = pre' ++ [p] /\ prev = Some p).

(** *** Positional encoding, element by element

    A chunk whose first time step is position [offset] of the sequence:
    element [(b, i, f)] is the input plus row [offset + i] of the table. *)
Definition encoded (x params : ndarray A) (offset : nat) (idx : list nat) : A :=
  match idx with
  | [b; i; f] => add (get0 x [b; i; f]) (get0 params [0; offset + i; f])
  | _ => zero
  end.

(** The position in the whole sequence of the first time step of chunk [k]:
    the lengths of the chunks before it, added up. *)
Definition chunk_offset (xs : list (ndarray A)) (k : nat) : nat :=
  total_dim1 (firstn k xs).

Definition add_slice (params : ndarray A) (offset : nat) (chunk : ndarray A)
  : result (ndarray A) :=
  symbol_size <- np_shape_at chunk 1 ;;
  table <- getitem_slice1 zero 3 params (Some (Z.of_nat offset))
             (Some (Z.of_nat offset + Z.of_nat symbol_size)%Z) ;;
  np_add chunk table.

Fixpoint collect {X : Type} (rs : list (result X)) : result (list X) :=
  match rs with
  | [] => Ok []
  | r :: rs' => x <- r ;; xs <- collect rs' ;; Ok (x :: xs)
  end.

Definition encode_by_offsets (params : ndarray A) (xs : list (ndarray A))
  : result (list (ndarray A)) :=
  collect (map (fun kx => add_slice params (chunk_offset xs (fst kx)) (snd kx))
             (combine (seq 0 (length xs)) xs)).

End ClosedForms.


(** The backend calls of the score, masking and softmax part, in order. *)
Definition weights_events {C : Type} (mask : option (ndarray C)) : list event :=
  [EvShape; EvSwapaxes; EvMatmul; EvSqrt; EvDivide]
  ++ (match mask with Some _ => [EvWhere] | None => [] end)
  ++ [EvLogsumexp; EvSubtract; EvExp].

(** The outcome of a call that runs [m] and then raises [e]. *)
Definition then_raise {X Y : Type} (m : traced X) (e : exn) : traced Y :=
  fun tr =>
    match m tr with
    | (tr', Ok _) => (tr', Raise e)
    | (tr', Raise e') => (tr', Raise e')
    end.

(** A single token attending to itself. *)
Definition one_token : ndarray float := NdArray [1; 1; 2] [1; 2]%float.

(** The backend calls of the dropout step. *)
Definition dropout_events (dropout : option float) (mode : string) : list event :=
  match dropout with
  | Some d =>
      if PrimFloat.ltb 0 d && String.eqb mode "train"
      then [EvBernoulli; EvDivide; EvWhere] else []
  | None => []
  end.

(** The table of an even feature depth, element by element: sines in the
    even columns, cosines in the odd ones. *)
Definition table_entry {A : Type} {dt : Dtype A} {ops : TableOps A}
    (feature_depth : nat) (idx : list nat) : A :=
  match idx with
  | [p; j] =>
      to_float32
        (if Nat.even j then table_sin (table_angle feature_depth p (j / 2))
         else table_cos (table_angle feature_depth p (j / 2)))
  | _ => zero
  end.

(** The backend calls of [SplitHeads] and of [JoinHeads]. *)
Definition split_events : list event := [EvReshape; EvTranspose].
Definition join_events : list event := [EvTranspose; EvReshape].

(** * Properties of the array model *)

Unset Implicit Arguments.

Lemma length_indices (sh : list nat) : length (indices sh) = numel sh.
Proof.
  induction sh as [|n sh IH]; simpl; [reflexivity|].
  generalize 0. induction n as [|n IHn]; intros s; simpl; [reflexivity|].
  rewrite length_app, length_map, IH, IHn. reflexivity.
Qed.

Lemma map_flat_map {X Y Z : Type} (g : Y -> Z) (f : X -> list Y) (l : list X) :
  map g (flat_map f l) = flat_map (fun x => map g (f x)) l.
Proof.
  induction l as [|x l IH]; simpl; [reflexivity|].
  rewrite map_app, IH. reflexivity.
Qed.

Lemma flat_map_seq_blocks (m n s : nat) :
  flat_map (fun i => seq (i * m) m) (seq s n) = seq (s * m) (n * m).
Proof.
  revert s. induction n as [|n IH]; intros s; simpl; [reflexivity|].
  rewrite IH. rewrite seq_app. f_equal. f_equal. lia.
Qed.

Lemma map_add_seq (k s m : nat) :
  map (fun x => k + x) (seq s m) = seq (k + s) m.
Proof.
  revert s. induction m as [|m IH]; intros s; simpl; [reflexivity|].
  rewrite IH. do 2 f_equal. lia.
Qed.

Lemma ravel_indices (sh : list nat) :
  map (ravel sh) (indices sh) = seq 0 (numel sh).
Proof.
  induction sh as [|n sh IH]; simpl; [reflexivity|].
  rewrite map_flat_map.
  change (seq 0 (n * numel sh)) with (seq (0 * numel sh) (n * numel sh)).
  rewrite <- flat_map_seq_blocks.
  apply flat_map_ext. intros i.
  rewrite map_map. simpl.
  replace (seq (i * numel sh) (numel sh))
    with (seq (i * numel sh + 0) (numel sh)) by (f_equal; lia).
  rewrite <- map_add_seq, <- IH, map_map. reflexivity.
Qed.

Lemma in_bounds_indices (sh idx : list nat) :
  In idx (indices sh) -> in_bounds sh idx = true.
Proof.
  revert idx. induction sh as [|n sh IH]; intros idx; simpl.
  - intros [<-|[]]. reflexivity.
  - rewrite in_flat_map. intros (i & Hi & Hin).
    apply in_map_iff in Hin. destruct Hin as (idx' & <- & Hin).
    apply in_seq in Hi. simpl.
    rewrite (IH _ Hin), andb_true_r. apply Nat.ltb_lt. lia.
Qed.

Lemma ravel_lt (sh idx : list nat) :
  in_bounds sh idx = true -> ravel sh idx < numel sh.
Proof.
  revert idx. induction sh as [|n sh IH]; intros [|i idx]; simpl; try discriminate.
  - lia.
  - intros H. apply andb_prop in H. destruct H as [Hi H].
    apply Nat.ltb_lt in Hi. specialize (IH _ H). nia.
Qed.

Lemma ravel_inj (sh i1 i2 : list nat) :
  in_bounds sh i1 = true -> in_bounds sh i2 = true ->
  ravel sh i1 = ravel sh i2 -> i1 = i2.
Proof.
  revert i1 i2. induction sh as [|n sh IH]; intros [|a i1] [|b i2]; simpl;
    try discriminate; [reflexivity|].
  intros H1 H2 E.
  apply andb_prop in H1. destruct H1 as [_ H1].
  apply andb_prop in H2. destruct H2 as [_ H2].
  pose proof (ravel_lt _ _ H1) as L1. pose proof (ravel_lt _ _ H2) as L2.
  assert (a = b) by nia. subst b.
  f_equal. apply IH; [assumption|assumption|lia].
Qed.

Lemma nth_error_indices (sh idx : list nat) :
  in_bounds sh idx = true ->
  nth_error (indices sh) (ravel sh idx) = Some idx.
Proof.
  intros Hb.
  pose proof (ravel_lt _ _ Hb) as Hlt.
  destruct (nth_error (indices sh) (ravel sh idx)) as [idx'|] eqn:E.
  - pose proof (nth_error_In _ _ E) as Hin.
    apply in_bounds_indices in Hin.
    pose proof (map_nth_error (ravel sh) _ _ E) as E'.
    rewrite ravel_indices in E'.
    rewrite nth_error_seq in E'.
    destruct (Nat.ltb_spec (ravel sh idx) (numel sh)); [|lia].
    simpl in E'. injection E' as E'.
    f_equal. apply (ravel_inj sh); auto.
  - apply nth_error_None in E. rewrite length_indices in E. lia.
Qed.

Lemma in_bounds_length (sh idx : list nat) :
  in_bounds sh idx = true -> length idx = length sh.
Proof.
  revert idx. induction sh as [|n sh IH]; intros [|i idx]; simpl; try discriminate.
  - reflexivity.
  - intros H. apply andb_prop in H. destruct H as [_ H]. f_equal. apply IH, H.
Qed.

Lemma in_bounds_cons (n i : nat) (sh idx : list nat) :
  in_bounds (n :: sh) (i :: idx) = true <-> i < n /\ in_bounds sh idx = true.
Proof.
  simpl. rewrite andb_true_iff, Nat.ltb_lt. reflexivity.
Qed.

Lemma in_bounds_inv (n : nat) (sh idx : list nat) :
  in_bounds (n :: sh) idx = true ->
  exists i idx', idx = i :: idx' /\ i < n /\ in_bounds sh idx' = true.
Proof.
  destruct idx as [|i idx']; simpl; [discriminate|].
  intros H. apply andb_prop in H. destruct H as [Hi H].
  apply Nat.ltb_lt in Hi. eauto.
Qed.

Lemma in_bounds_nil (idx : list nat) : in_bounds [] idx = true -> idx = [].
Proof. destruct idx; simpl; [reflexivity|discriminate]. Qed.

(** Split an in-bounds hypothesis into its components. *)
Ltac inv_bounds H :=
  repeat match type of H with
    | in_bounds (_ :: _) ?idx = true =>
        let i := fresh "i" in
        let idx' := fresh "idx" in
        let Hi := fresh "Hi" in
        let E := fresh "E" in
        apply in_bounds_inv in H;
        destruct H as (i & idx' & E & Hi & H);
        try subst idx
    | in_bounds [] ?idx = true =>
        apply in_bounds_nil in H; try subst idx
    end.

Section ArrayFacts.
Context {A : Type}.
Implicit Types (t : ndarray A) (sh idx : list nat) (f : list nat -> A).

Lemma wf_tabulate sh f : wf (tabulate sh f).
Proof. unfold wf, tabulate. simpl. rewrite length_map. apply length_indices. Qed.

Lemma shape_tabulate sh f : shape (tabulate sh f) = sh.
Proof. reflexivity. Qed.

Lemma get_tabulate sh f idx :
  in_bounds sh idx = true -> get (tabulate sh f) idx = Some (f idx).
Proof.
  intros Hb. unfold get, tabulate. simpl. rewrite Hb.
  apply map_nth_error, nth_error_indices, Hb.
Qed.

Lemma getd_tabulate d sh f idx :
  in_bounds sh idx = true -> getd d (tabulate sh f) idx = f idx.
Proof. intros Hb. unfold getd. rewrite get_tabulate by assumption. reflexivity. Qed.

Lemma get_out_of_bounds t idx :
  in_bounds (shape t) idx = false -> get t idx = None.
Proof. intros Hb. unfold get. rewrite Hb. reflexivity. Qed.

Lemma get_in_bounds t idx :
  wf t -> in_bounds (shape t) idx = true -> exists a, get t idx = Some a.
Proof.
  intros Hwf Hb. unfold get. rewrite Hb.
  destruct (nth_error (data t) (ravel (shape t) idx)) as [a|] eqn:E; [eauto|].
  apply nth_error_None in E. apply ravel_lt in Hb. rewrite Hwf in E. lia.
Qed.

(** The data of a well-formed array is its elements read in index order. *)
Lemma data_as_tabulate d t :
  wf t -> data t = map (getd d t) (indices (shape t)).
Proof.
  intros Hwf. apply nth_error_ext. intros p.
  rewrite nth_error_map.
  destruct (nth_error (indices (shape t)) p) as [idx|] eqn:E; simpl.
  - pose proof (nth_error_In _ _ E) as Hin.
    apply in_bounds_indices in Hin.
    pose proof (map_nth_error (ravel (shape t)) _ _ E) as E'.
    rewrite ravel_indices, nth_error_seq in E'.
    destruct (p <? numel (shape t)); [|discriminate].
    injection E' as E'. simpl in E'. subst p.
    destruct (get_in_bounds t idx Hwf Hin) as [a Ha].
    unfold getd. rewrite Ha. unfold get in Ha. rewrite Hin in Ha. exact Ha.
  - apply nth_error_None in E. rewrite length_indices in E.
    apply nth_error_None. rewrite Hwf. exact E.
Qed.

Lemma tabulate_getd d t : wf t -> tabulate (shape t) (getd d t) = t.
Proof.
  intros Hwf. unfold tabulate. rewrite <- (data_as_tabulate d t Hwf).
  destruct t; reflexivity.
Qed.

Lemma tabulate_ext sh f g :
  (forall idx, in_bounds sh idx = true -> f idx = g idx) ->
  tabulate sh f = tabulate sh g.
Proof.
  intros H. unfold tabulate. f_equal. apply map_ext_in.
  intros idx Hin. apply H, in_bounds_indices, Hin.
Qed.

(** Two well-formed arrays of one shape with the same elements are equal. *)
Lemma ndarray_ext t1 t2 :
  wf t1 -> wf t2 -> shape t1 = shape t2 ->
  (forall idx, in_bounds (shape t1) idx = true -> get t1 idx = get t2 idx) ->
  t1 = t2.
Proof.
  intros W1 W2 Hs Hg.
  destruct (data t1) as [|d l] eqn:E.
  - destruct t1 as [s1 d1], t2 as [s2 d2]. simpl in *. subst.
    f_equal. unfold wf in *. simpl in *. rewrite <- W1 in W2.
    destruct d2; [reflexivity|discriminate].
  - rewrite <- (tabulate_getd d t1 W1), <- (tabulate_getd d t2 W2), <- Hs.
    apply tabulate_ext. intros idx Hb. unfold getd. rewrite (Hg idx Hb). reflexivity.
Qed.

End ArrayFacts.

(** * CausalMask *)

Lemma length_filter_flat_map {X Y : Type} (p : Y -> bool) (f : X -> list Y) (l : list X) :
  length (filter p (flat_map f l))
  = list_sum (map (fun x => length (filter p (f x))) l).
Proof.
  induction l as [|x l IH]; simpl; [reflexivity|].
  rewrite filter_app, length_app, IH. reflexivity.
Qed.

Lemma filter_map_swap {X Y : Type} (p : Y -> bool) (g : X -> Y) (l : list X) :
  filter p (map g l) = map g (filter (fun x => p (g x)) l).
Proof.
  induction l as [|x l IH]; simpl; [reflexivity|].
  destruct (p (g x)); simpl; rewrite IH; reflexivity.
Qed.

Lemma length_filter_leb_seq (i n : nat) :
  length (filter (fun j => j <=? i) (seq 0 n)) = Nat.min (S i) n.
Proof.
  induction n as [|n IH]; [simpl; lia|].
  rewrite seq_S, filter_app, length_app, IH. cbn [Nat.add filter].
  destruct (Nat.leb_spec n i); cbn [length]; lia.
Qed.

Lemma triangle_sum (n : nat) :
  2 * list_sum (map S (seq 0 n)) = n * (n + 1).
Proof.
  induction n as [|n IH]; [reflexivity|].
  rewrite seq_S, map_app, list_sum_app. simpl list_sum. lia.
Qed.

Lemma indices_1d (n : nat) : indices [n] = map (fun j => [j]) (seq 0 n).
Proof.
  simpl. generalize 0. induction n as [|n IH]; intros s; simpl; [reflexivity|].
  rewrite IH. reflexivity.
Qed.

Section CausalMaskFacts.
Context {A : Type} {dt : Dtype A}.

Lemma tril_ones (n : nat) :
  np_tril (np_ones [1; n; n]) 0 = tabulate [1; n; n] lower_triangle.
Proof.
  unfold np_tril, np_ones. rewrite shape_tabulate.
  apply tabulate_ext. intros idx Hb.
  unfold get0. rewrite getd_tabulate by exact Hb.
  inv_bounds Hb. simpl.
  match goal with
  | |- context [(Z.of_nat ?j <=? Z.of_nat ?i + 0)%Z] =>
      destruct (Z.leb_spec (Z.of_nat j) (Z.of_nat i + 0)), (Nat.leb_spec j i)
  end; try reflexivity; lia.
Qed.

Lemma count_lower_triangle (n : nat) :
  2 * count_true (tabulate [1; n; n] lower_triangle) = n * (n + 1).
Proof.
  unfold count_true, tabulate. cbn [data].
  change (indices [1; n; n])
    with (flat_map (fun b => map (cons b) (indices [n; n])) (seq 0 1)).
  cbn [seq flat_map]. rewrite app_nil_r, map_map.
  change (indices [n; n])
    with (flat_map (fun i => map (cons i) (indices [n])) (seq 0 n)).
  rewrite map_flat_map, length_filter_flat_map.
  rewrite <- triangle_sum. f_equal. f_equal.
  apply map_ext_in. intros i Hi. apply in_seq in Hi.
  rewrite indices_1d, !map_map. cbn [lower_triangle].
  rewrite filter_map_swap, length_map.
  rewrite (filter_ext _ (fun j => j <=? i)).
  - rewrite length_filter_leb_seq. lia.
  - intros j. destruct (j <=? i); [apply truthy_one|apply truthy_zero].
Qed.

End CausalMaskFacts.

(** C7.  When [x.shape[axis]] is [n >= 1], [CausalMask] returns an array of
    shape [(1, n, n)] whose entry [(0, i, j)] is one (true) exactly when
    [j <= i] and zero (false) otherwise, with [n (n + 1) / 2] true entries;
    for [n = 4] its rows are [1000], [1100], [1110], [1111]. *)
Theorem causal_mask_lower_triangular {A : Type} {dt : Dtype A}
    (x : ndarray A) (axis : Z) (n : nat) :
  1 <= n ->
  np_shape_at x axis = Ok n ->
  exists m : ndarray A,
    CausalMask x axis = Ok m
    /\ shape m = [1; n; n]
    /\ wf m
    /\ (forall i j, i < n -> j < n ->
          exists a, get m [0; i; j] = Some a /\ (truthy a = true <-> j <= i))
    /\ 2 * count_true m = n * (n + 1)
    /\ (n = 4 ->
        m = NdArray [1; 4; 4]
              [one; zero; zero; zero;
               one; one; zero; zero;
               one; one; one; zero;
               one; one; one; one]).
Proof.
  intros _ Hn. unfold CausalMask. rewrite Hn. cbn [rbind].
  rewrite tril_ones.
  eexists. split; [reflexivity|].
  split; [reflexivity|].
  split; [apply wf_tabulate|].
  split; [|split].
  - intros i j Hi Hj.
    exists (if j <=? i then one else zero). split.
    + rewrite get_tabulate; [reflexivity|].
      simpl. apply Nat.ltb_lt in Hi, Hj. rewrite Hi, Hj. reflexivity.
    + destruct (Nat.leb_spec j i).
      * rewrite truthy_one. split; auto.
      * rewrite truthy_zero. split; [discriminate|lia].
  - apply count_lower_triangle.
  - intros ->. reflexivity.
Qed.

Lemma causal_mask_lower_triangular_witness :
  exists m : ndarray Z,
    CausalMask (NdArray [2; 3] [5; 6; 7; 8; 9; 10]%Z) (-1) = Ok m
    /\ shape m = [1; 3; 3]
    /\ wf m
    /\ (forall i j, i < 3 -> j < 3 ->
          exists a, get m [0; i; j] = Some a /\ (truthy a = true <-> j <= i))
    /\ 2 * count_true m = 3 * (3 + 1)
    /\ (3 = 4 ->
        m = NdArray [1; 4; 4]
              [one; zero; zero; zero;
               one; one; zero; zero;
               one; one; one; zero;
               one; one; one; one]).
Proof.
  apply (causal_mask_lower_triangular (NdArray [2; 3] [5; 6; 7; 8; 9; 10]%Z) (-1) 3).
  - lia.
  - reflexivity.
Defined.

(** * ShiftRight *)

Lemma pad_shape_zero (sh : list nat) :
  pad_shape sh (repeat (0, 0) (length sh)) = sh.
Proof.
  induction sh as [|n sh IH]; simpl; [reflexivity|].
  rewrite IH, Nat.add_0_r. reflexivity.
Qed.

Lemma pad_source_zero (sh idx : list nat) :
  in_bounds sh idx = true ->
  pad_source sh (repeat (0, 0) (length sh)) idx = Some idx.
Proof.
  revert idx. induction sh as [|n sh IH]; intros idx Hb; inv_bounds Hb.
  - reflexivity.
  - simpl. apply Nat.ltb_lt in Hi. rewrite Hi. rewrite IH by assumption.
    simpl. rewrite Nat.sub_0_r. reflexivity.
Qed.

Lemma clamp_slice_minus_one (n : nat) : clamp_slice n (-1) = n - 1.
Proof. unfold clamp_slice. change (-1 <? 0)%Z with true. cbv iota. lia. Qed.

Lemma clamp_slice_nat (n k : nat) : clamp_slice n (Z.of_nat k) = Nat.min k n.
Proof.
  unfold clamp_slice. destruct (Z.ltb_spec (Z.of_nat k) 0); lia.
Qed.

Lemma clamp_slice_nat_add (n k l : nat) :
  clamp_slice n (Z.of_nat k + Z.of_nat l) = Nat.min (k + l) n.
Proof. rewrite <- Nat2Z.inj_add. apply clamp_slice_nat. Qed.

Lemma py_index_minus_one (n : nat) : 1 <= n -> py_index n (-1) = Some (n - 1).
Proof.
  intros Hn. unfold py_index. change (-1 <? 0)%Z with true. cbv iota.
  destruct (Z.leb_spec 0 (-1 + Z.of_nat n)); [|lia].
  destruct (Z.ltb_spec (-1 + Z.of_nat n) (Z.of_nat n)); [|lia].
  cbn [andb]. f_equal. lia.
Qed.

(** Bounds checks that hold are rewritten to [true]. *)
Ltac bounds_true :=
  repeat match goal with
    | |- context [?a <? ?b] =>
        replace (a <? b) with true by (symmetry; apply Nat.ltb_lt; lia)
    | |- context [?a <=? ?b] =>
        replace (a <=? b) with true by (symmetry; apply Nat.leb_le; lia)
    end.

Ltac solve_bounds :=
  rewrite ?in_bounds_cons; repeat split; solve [lia | assumption | reflexivity].

Lemma shape_eqb_refl (sh : list nat) : shape_eqb sh sh = true.
Proof. induction sh; simpl; [reflexivity|]. rewrite Nat.eqb_refl. assumption. Qed.

Lemma tuple_getitem_0 {X : Type} (x : X) (l : list X) :
  tuple_getitem (x :: l) 0 = Ok x.
Proof. reflexivity. Qed.

Section ShiftRightFacts.
Context {A : Type} {dt : Dtype A}.

(** The shift of one array, element by element. *)
Lemma shift_right_single (x : ndarray A) (B L : nat) (rest : list nat) :
  shape x = B :: L :: rest ->
  ShiftRight (Single x)
  = Ok (Single (tabulate (B :: L :: rest) (shifted_chunk None x))).
Proof.
  intros Hs. unfold ShiftRight. rewrite Hs. cbn [length repeat].
  unfold list_setitem. cbn [length Nat.ltb Nat.leb firstn skipn app rbind].
  unfold np_pad. rewrite Hs. cbn [length]. rewrite repeat_length, Nat.eqb_refl.
  cbn [rbind pad_shape]. rewrite pad_shape_zero.
  unfold getitem_slice1. rewrite shape_tabulate. cbn [length Nat.ltb Nat.leb].
  unfold slice_bounds. rewrite clamp_slice_minus_one. cbn [rbind].
  replace (0 + B + 0) with B by lia.
  replace (1 + L + 0 - 1 - 0) with L by lia.
  replace (1 + L + 0) with (S L) by lia.
  do 2 f_equal. apply tabulate_ext. intros idx Hb.
  inv_bounds Hb. cbn [shifted_chunk last_step Nat.add].
  rewrite getd_tabulate by solve_bounds.
  cbn [pad_source].
  replace ((0 <=? i) && (i <? 0 + B)) with true
    by (symmetry; apply andb_true_intro; split; [reflexivity|apply Nat.ltb_lt; lia]).
  destruct (Nat.eqb_spec i0 0) as [->|Hne].
  - reflexivity.
  - replace ((1 <=? i0) && (i0 <? 1 + L)) with true
      by (symmetry; apply andb_true_intro; split;
          [apply Nat.leb_le; lia|apply Nat.ltb_lt; lia]).
    rewrite pad_source_zero by assumption. cbn [option_map].
    rewrite Nat.sub_0_r. reflexivity.
Qed.

(** An array with a new axis of length 1 has the elements it had. *)
Lemma getd_newaxis1 (d : A) (B : nat) (rest : list nat) (l : list A) (b : nat) (r : list nat) :
  getd d (NdArray (B :: 1 :: rest) l) (b :: 0 :: r)
  = getd d (NdArray (B :: rest) l) (b :: r).
Proof.
  unfold getd, get. cbn [shape data in_bounds ravel].
  change (0 <? 1) with true. cbn [andb].
  change (numel (1 :: rest)) with (1 * numel rest).
  replace (b * (1 * numel rest) + (0 * numel rest + ravel rest r))
    with (b * numel rest + ravel rest r) by lia.
  reflexivity.
Qed.

Lemma shift_step (prev : option (ndarray A)) (x : ndarray A) (B L : nat) (rest : list nat)
    (xs : list (ndarray A)) (acc : list (ndarray A)) :
  1 <= L -> shape x = B :: L :: rest ->
  shift_right_loop (x :: xs) (tabulate (B :: rest) (last_step prev)) acc
  = shift_right_loop xs (tabulate (B :: rest) (last_step (Some x)))
      (acc ++ [tabulate (shape x) (shifted_chunk prev x)]).
Proof.
  intros HL Hs. cbn [shift_right_loop newaxis1 shape tabulate rbind].
  unfold np_concatenate1. cbn [shape forallb same_off_axis1].
  rewrite Hs. cbn [same_off_axis1]. rewrite !Nat.eqb_refl, !shape_eqb_refl.
  cbn [andb rbind total_dim1 fold_right].
  unfold getitem_int1 at 1. rewrite Hs. rewrite py_index_minus_one by assumption.
  cbn [rbind].
  unfold getitem_slice1. rewrite shape_tabulate. cbn [length Nat.ltb Nat.leb].
  unfold slice_bounds. rewrite clamp_slice_minus_one. cbn [rbind].
  assert (Hd : dim1 x = L) by (unfold dim1; rewrite Hs; reflexivity).
  unfold dim1 at 1 3. cbn [shape nth]. rewrite Hd.
  replace (1 + (L + 0) - 1 - 0) with L by lia.
  f_equal.
  - apply tabulate_ext. intros idx Hb. inv_bounds Hb.
    cbn [last_step]. rewrite Hd. reflexivity.
  - do 2 f_equal. apply tabulate_ext. intros idx Hb. inv_bounds Hb.
    rewrite getd_tabulate by solve_bounds.
    cbn [concat_get shifted_chunk Nat.add]. unfold dim1 at 1. cbn [shape nth].
    rewrite Hd.
    destruct (Nat.eqb_spec i0 0) as [->|Hne].
    + change (0 <? 1) with true. cbv iota.
      rewrite getd_newaxis1.
      change (NdArray (B :: rest) (data (tabulate (B :: rest) (last_step prev))))
        with (tabulate (B :: rest) (last_step prev)).
      rewrite getd_tabulate by solve_bounds. reflexivity.
    + destruct (Nat.ltb_spec i0 1); [lia|].
      bounds_true. reflexivity.
Qed.

Lemma shift_loop_closed (xs : list (ndarray A)) (B : nat) (rest : list nat) :
  Forall (is_chunk B rest) xs ->
  forall prev acc,
  shift_right_loop xs (tabulate (B :: rest) (last_step prev)) acc
  = Ok (acc ++ shifted_chunks prev xs).
Proof.
  induction 1 as [|x xs (L & HL & Hs) Hxs IH]; intros prev acc.
  - simpl. rewrite app_nil_r. reflexivity.
  - rewrite (shift_step prev x B L rest xs acc HL Hs), IH.
    cbn [shifted_chunks]. rewrite <- app_assoc. reflexivity.
Qed.

Lemma shift_right_chunked_closed (xs : list (ndarray A)) (B : nat) (rest : list nat) :
  xs <> [] -> Forall (is_chunk B rest) xs ->
  ShiftRight (Chunked xs) = Ok (Chunked (shifted_chunks None xs)).
Proof.
  intros Hne Hall. destruct xs as [|x0 xs]; [congruence|].
  pose proof (Forall_inv Hall) as (L & HL & Hs).
  unfold ShiftRight. rewrite tuple_getitem_0. cbn [rbind].
  unfold getitem_int1. rewrite Hs, py_index_minus_one by assumption.
  cbn [rbind]. unfold np_zeros_like, np_zeros. rewrite shape_tabulate.
  change (tabulate (B :: rest) (fun _ : list nat => zero))
    with (tabulate (B :: rest) (last_step (A:=A) None)).
  rewrite (shift_loop_closed _ B rest Hall). reflexivity.
Qed.

Lemma concat_get_app (d : A) (pre : list (ndarray A)) (x : ndarray A)
    (suf : list (ndarray A)) (b j : nat) (r : list nat) :
  j < dim1 x ->
  concat_get d (pre ++ x :: suf) b (total_dim1 pre + j) r = getd d x (b :: j :: r).
Proof.
  intros Hj. induction pre as [|p pre IH]; cbn [app concat_get total_dim1 fold_right].
  - bounds_true. reflexivity.
  - fold (total_dim1 pre).
    destruct (Nat.ltb_spec (dim1 p + total_dim1 pre + j) (dim1 p)); [lia|].
    replace (dim1 p + total_dim1 pre + j - dim1 p) with (total_dim1 pre + j) by lia.
    exact IH.
Qed.

Lemma total_dim1_app (l1 l2 : list (ndarray A)) :
  total_dim1 (l1 ++ l2) = total_dim1 l1 + total_dim1 l2.
Proof.
  induction l1 as [|p l1 IH]; cbn [app total_dim1 fold_right]; [reflexivity|].
  fold (total_dim1 (l1 ++ l2)). fold (total_dim1 l1). lia.
Qed.

Lemma concatenate_closed (xs : list (ndarray A)) (B : nat) (rest : list nat) :
  xs <> [] -> Forall (is_chunk B rest) xs ->
  np_concatenate1 zero xs
  = Ok (tabulate (B :: total_dim1 xs :: rest)
          (fun idx => match idx with
                      | b :: i :: r => concat_get zero xs b i r
                      | _ => zero
                      end)).
Proof.
  intros Hne Hall. destruct xs as [|x0 xs]; [congruence|].
  pose proof (Forall_inv Hall) as (L & HL & Hs).
  unfold np_concatenate1. rewrite Hs.
  replace (forallb _ (x0 :: xs)) with true; [reflexivity|].
  symmetry. apply forallb_forall. intros t Ht.
  rewrite Forall_forall in Hall. destruct (Hall t Ht) as (L' & _ & Hs').
  rewrite Hs'. cbn [same_off_axis1]. rewrite Nat.eqb_refl, shape_eqb_refl. reflexivity.
Qed.

Lemma dim1_is_chunk (x : ndarray A) (B : nat) (rest : list nat) :
  is_chunk B rest x -> 1 <= dim1 x /\ shape x = B :: dim1 x :: rest.
Proof.
  intros (L & HL & Hs). unfold dim1. rewrite Hs. cbn [nth]. split; [assumption|reflexivity].
Qed.

Lemma resplit_closed (xs : list (ndarray A)) (B : nat) (rest : list nat) :
  Forall (is_chunk B rest) xs ->
  forall suf pre prev,
    xs = pre ++ suf -> before pre prev ->
    resplit
      (tabulate (B :: total_dim1 xs :: rest)
         (shifted_chunk None
            (tabulate (B :: total_dim1 xs :: rest)
               (fun idx => match idx with
                           | b :: i :: r => concat_get zero xs b i r
                           | _ => zero
                           end))))
      (map dim1 suf) (total_dim1 pre)
    = Ok (shifted_chunks prev suf).
Proof.
  intros Hall. induction suf as [|x suf IH]; intros pre prev Hxs Hprev.
  - reflexivity.
  - cbn [map resplit shifted_chunks].
    assert (Hx : is_chunk B rest x).
    { rewrite Forall_forall in Hall. apply Hall. rewrite Hxs.
      apply in_or_app. right. left. reflexivity. }
    apply dim1_is_chunk in Hx. destruct Hx as [HL Hs].
    assert (Htot : total_dim1 xs = total_dim1 pre + dim1 x + total_dim1 suf).
    { rewrite Hxs, total_dim1_app. cbn [total_dim1 fold_right]. 
      fold (total_dim1 suf). lia. }
    unfold getitem_slice1 at 1. rewrite shape_tabulate.
    cbn [length Nat.ltb Nat.leb]. unfold slice_bounds.
    rewrite clamp_slice_nat, clamp_slice_nat_add.
    replace (Nat.min (total_dim1 pre) (total_dim1 xs)) with (total_dim1 pre) by lia.
    replace (Nat.min (total_dim1 pre + dim1 x) (total_dim1 xs))
      with (total_dim1 pre + dim1 x) by lia.
    replace (total_dim1 pre + dim1 x - total_dim1 pre) with (dim1 x) by lia.
    cbn [rbind].
    assert (Hstep : total_dim1 (pre ++ [x]) = total_dim1 pre + dim1 x).
    { rewrite total_dim1_app. cbn [total_dim1 fold_right]. lia. }
    rewrite <- Hstep.
    rewrite (IH (pre ++ [x]) (Some x)).
    2:{ rewrite <- app_assoc. exact Hxs. }
    2:{ right. eauto. }
    cbn [rbind]. do 2 f_equal. rewrite Hs.
    apply tabulate_ext. intros idx Hb. inv_bounds Hb.
    rewrite getd_tabulate by solve_bounds.
    cbn [shifted_chunk].
    destruct (Nat.eqb_spec i0 0) as [->|Hne].
    + destruct Hprev as [[-> ->]|(pre' & p & -> & ->)].
      * reflexivity.
      * assert (Hp : is_chunk B rest p).
        { rewrite Forall_forall in Hall. apply Hall. rewrite Hxs.
          apply in_or_app. left. apply in_or_app. right. left. reflexivity. }
        apply dim1_is_chunk in Hp. destruct Hp as [HLp Hsp].
        rewrite total_dim1_app in *. cbn [total_dim1 fold_right] in *.
        fold (total_dim1 pre') in *.
        destruct (Nat.eqb_spec (total_dim1 pre' + (dim1 p + 0) + 0) 0); [lia|].
        unfold get0 at 1. rewrite getd_tabulate by solve_bounds.
        replace (total_dim1 pre' + (dim1 p + 0) + 0 - 1)
          with (total_dim1 pre' + (dim1 p - 1)) by lia.
        rewrite Hxs, <- app_assoc. cbn [app].
        rewrite concat_get_app by lia. reflexivity.
    + destruct (Nat.eqb_spec (total_dim1 pre + i0) 0); [lia|].
      unfold get0 at 1. rewrite getd_tabulate by solve_bounds.
      replace (total_dim1 pre + i0 - 1) with (total_dim1 pre + (i0 - 1)) by lia.
      rewrite Hxs at 1. rewrite concat_get_app by lia. reflexivity.
Qed.

Lemma shift_of_concatenation_closed (xs : list (ndarray A)) (B : nat) (rest : list nat) :
  xs <> [] -> Forall (is_chunk B rest) xs ->
  shift_of_concatenation xs = Ok (Chunked (shifted_chunks None xs)).
Proof.
  intros Hne Hall. unfold shift_of_concatenation.
  rewrite (concatenate_closed xs B rest Hne Hall). cbn [rbind].
  rewrite (shift_right_single _ B (total_dim1 xs) rest) by reflexivity.
  cbn [rbind].
  pose proof (resplit_closed xs B rest Hall xs [] None eq_refl) as H.
  change (total_dim1 (@nil (ndarray A))) with 0 in H.
  rewrite H; [reflexivity|]. left. split; reflexivity.
Qed.

End ShiftRightFacts.

(** C8.  A non-chunked input of shape [(batch, L, D)] with [L >= 1] is
    shifted into an array of the same shape whose time step 0 is zero and
    whose time step [i], for [1 <= i < L], is time step [i - 1] of the
    input. *)
Theorem shift_right_non_chunked {A : Type} {dt : Dtype A}
    (x : ndarray A) (B L D : nat) :
  wf x -> shape x = [B; L; D] -> 1 <= L ->
  exists y : ndarray A,
    ShiftRight (Single x) = Ok (Single y)
    /\ shape y = [B; L; D]
    /\ wf y
    /\ (forall b f, b < B -> f < D -> get y [b; 0; f] = Some zero)
    /\ (forall b i f, b < B -> 1 <= i < L -> f < D ->
          get y [b; i; f] = get x [b; i - 1; f]).
Proof.
  intros Hwf Hs HL. rewrite (shift_right_single x B L [D] Hs).
  eexists. split; [reflexivity|]. split; [reflexivity|].
  split; [apply wf_tabulate|]. split.
  - intros b f Hb Hf. rewrite get_tabulate by solve_bounds. reflexivity.
  - intros b i f Hb Hi Hf. rewrite get_tabulate by solve_bounds.
    cbn [shifted_chunk]. destruct (Nat.eqb_spec i 0); [lia|].
    unfold get0, getd.
    destruct (get_in_bounds x [b; i - 1; f] Hwf) as [a Ha].
    { rewrite Hs. solve_bounds. }
    rewrite Ha. reflexivity.
Qed.

Lemma shift_right_non_chunked_witness :
  exists y : ndarray Z,
    ShiftRight (Single (NdArray [2; 3; 1] [1; 2; 3; 4; 5; 6]%Z)) = Ok (Single y)
    /\ shape y = [2; 3; 1]
    /\ wf y
    /\ (forall b f, b < 2 -> f < 1 -> get y [b; 0; f] = Some zero)
    /\ (forall b i f, b < 2 -> 1 <= i < 3 -> f < 1 ->
          get y [b; i; f] = get (NdArray [2; 3; 1] [1; 2; 3; 4; 5; 6]%Z) [b; i - 1; f]).
Proof.
  apply (shift_right_non_chunked (NdArray [2; 3; 1] [1; 2; 3; 4; 5; 6]%Z) 2 3 1).
  - reflexivity.
  - reflexivity.
  - lia.
Defined.

Lemma nth_error_shifted_chunks {A : Type} {dt : Dtype A}
    (xs : list (ndarray A)) (prev : option (ndarray A)) (k : nat) (x : ndarray A) :
  nth_error xs k = Some x ->
  nth_error (shifted_chunks prev xs) k
  = Some (tabulate (shape x)
            (shifted_chunk (match k with 0 => prev | S k' => nth_error xs k' end) x)).
Proof.
  revert prev k. induction xs as [|x0 xs IH]; intros prev [|k] Hk;
    try discriminate.
  - injection Hk as ->. reflexivity.
  - cbn [nth_error] in Hk. cbn [shifted_chunks nth_error].
    rewrite (IH (Some x0) k Hk). destruct k; reflexivity.
Qed.

(** C2.  On a non-empty list of chunks of shapes [(batch, L_k) ++ rest] with
    every [L_k >= 1], the chunked right shift returns what is obtained by
    concatenating the chunks along the time axis, shifting the whole sequence
    and cutting the result at the chunk boundaries.  Chunk [k] of the result
    has the shape of chunk [k]; its time step 0 is zero for the first chunk
    and the last time step of chunk [k - 1] of the input otherwise, and its
    time step [i >= 1] is time step [i - 1] of chunk [k]. *)
Theorem shift_right_chunked_as_concatenation {A : Type} {dt : Dtype A}
    (xs : list (ndarray A)) (B : nat) (rest : list nat) :
  xs <> [] ->
  Forall (is_chunk B rest) xs ->
  exists ys : list (ndarray A),
    ShiftRight (Chunked xs) = Ok (Chunked ys)
    /\ shift_of_concatenation xs = Ok (Chunked ys)
    /\ length ys = length xs
    /\ (forall k x, nth_error xs k = Some x ->
          nth_error ys k
          = Some (tabulate (shape x)
                    (shifted_chunk
                       (match k with 0 => None | S k' => nth_error xs k' end) x))).
Proof.
  intros Hne Hall. exists (shifted_chunks None xs).
  split; [apply (shift_right_chunked_closed xs B rest Hne Hall)|].
  split; [apply (shift_of_concatenation_closed xs B rest Hne Hall)|].
  split.
  - generalize (@None (ndarray A)). clear. induction xs as [|x xs IH]; intros prev.
    + reflexivity.
    + cbn [shifted_chunks length]. rewrite IH. reflexivity.
  - intros k x Hk. apply nth_error_shifted_chunks, Hk.
Qed.

Lemma shift_right_chunked_as_concatenation_witness :
  let xs := [NdArray [1; 3; 1] [1; 2; 3]%Z;
             NdArray [1; 2; 1] [4; 5]%Z;
             NdArray [1; 4; 1] [6; 7; 8; 9]%Z] in
  exists ys : list (ndarray Z),
    ShiftRight (Chunked xs) = Ok (Chunked ys)
    /\ shift_of_concatenation xs = Ok (Chunked ys)
    /\ length ys = length xs
    /\ (forall k x, nth_error xs k = Some x ->
          nth_error ys k
          = Some (tabulate (shape x)
                    (shifted_chunk
                       (match k with 0 => None | S k' => nth_error xs k' end) x))).
Proof.
  intros xs.
  apply (shift_right_chunked_as_concatenation xs 1 [1]).
  - discriminate.
  - repeat constructor.
    + exists 3. split; [lia|reflexivity].
    + exists 2. split; [lia|reflexivity].
    + exists 4. split; [lia|reflexivity].
Defined.

(** * PositionalEncoding *)

(** Broadcasting [(B, L, D)] against [(1, M, D)]. *)
Lemma broadcast_shapes_table (B L M D : nat) :
  broadcast_shapes [B; L; D] [1; M; D]
  = if L =? M then Some [B; L; D]
    else if L =? 1 then Some [B; M; D]
    else if M =? 1 then Some [B; L; D]
    else None.
Proof.
  unfold broadcast_shapes. cbn [rev app broadcast_rev].
  repeat match goal with
    | |- context [?a =? ?b] => destruct (Nat.eqb_spec a b)
    end; subst; cbn [option_map rev app]; try reflexivity; try congruence.
Qed.

Section PositionalEncodingFacts.
Context {A : Type} {dt : Dtype A}.
Local Open Scope result_scope.

Lemma slice_table (params : ndarray A) (M D : nat) (lo hi : nat) :
  shape params = [1; M; D] ->
  getitem_slice1 zero 3 params (Some (Z.of_nat lo)) (Some (Z.of_nat lo + Z.of_nat hi)%Z)
  = Ok (tabulate [1; Nat.min (lo + hi) M - Nat.min lo M; D]
          (fun idx => match idx with
                      | b :: i :: r => getd zero params (b :: Nat.min lo M + i :: r)
                      | _ => zero
                      end)).
Proof.
  intros Hs. unfold getitem_slice1. rewrite Hs. cbn [length Nat.ltb Nat.leb].
  unfold slice_bounds. rewrite clamp_slice_nat, clamp_slice_nat_add. reflexivity.
Qed.

Lemma bcast_index_self (sh idx : list nat) :
  in_bounds sh idx = true -> bcast_index sh idx = idx.
Proof.
  intros Hb. unfold bcast_index.
  rewrite (in_bounds_length _ _ Hb), Nat.sub_diag. cbn [skipn].
  revert idx Hb. induction sh as [|n sh IH]; intros idx Hb; inv_bounds Hb.
  - reflexivity.
  - cbn [combine map fst snd]. rewrite (IH _ Hb).
    destruct (Nat.eqb_spec n 1); [f_equal; lia|reflexivity].
Qed.

Lemma bcast_index_unit (sh idx : list nat) (b : nat) :
  in_bounds sh idx = true -> bcast_index (1 :: sh) (b :: idx) = 0 :: idx.
Proof.
  intros Hb. pose proof (bcast_index_self sh idx Hb) as E.
  unfold bcast_index in *. cbn [length] in *.
  rewrite (in_bounds_length _ _ Hb), Nat.sub_diag in *. cbn [skipn] in *.
  cbn [combine map fst snd]. rewrite E. reflexivity.
Qed.

Lemma np_add_slice_closed (x params : ndarray A) (B L D M lo : nat) :
  shape x = [B; L; D] -> shape params = [1; M; D] -> lo + L <= M ->
  np_add x
    (tabulate [1; L; D]
       (fun idx => match idx with
                   | b :: i :: r => getd zero params (b :: lo + i :: r)
                   | _ => zero
                   end))
  = Ok (tabulate [B; L; D] (encoded x params lo)).
Proof.
  intros Hx Hp Hfit. unfold np_add. rewrite Hx, shape_tabulate.
  rewrite broadcast_shapes_table, Nat.eqb_refl.
  f_equal. apply tabulate_ext. intros idx Hb.
  rewrite (bcast_index_self _ _ Hb).
  inv_bounds Hb. rewrite bcast_index_unit by solve_bounds.
  unfold get0 at 2. rewrite getd_tabulate by solve_bounds.
  reflexivity.
Qed.



Lemma tuple_getitem_1 {X : Type} (a b : X) (r : list X) :
  tuple_getitem (a :: b :: r) 1 = Ok b.
Proof.
  unfold tuple_getitem, py_index. change (1 <? 0)%Z with false. cbv iota.
  change (0 <=? 1)%Z with true. cbn [andb].
  destruct (Z.ltb_spec 1 (Z.of_nat (length (a :: b :: r)))); [reflexivity|].
  cbn [length] in *. lia.
Qed.

Lemma np_shape_at_1 (x : ndarray A) (n : nat) :
  np_shape_at x 1 = Ok n -> n = dim1 x.
Proof.
  unfold np_shape_at, dim1. destruct (shape x) as [|a [|b r]]; try discriminate.
  rewrite tuple_getitem_1. intros H. cbn [nth]. congruence.
Qed.

Lemma chunk_offset_app (pre suf : list (ndarray A)) :
  chunk_offset (pre ++ suf) (length pre) = total_dim1 pre.
Proof.
  unfold chunk_offset. rewrite firstn_app, Nat.sub_diag, firstn_all.
  cbn [firstn]. rewrite app_nil_r. reflexivity.
Qed.

Lemma positional_encoding_loop_closed (params : ndarray A) (suf : list (ndarray A)) :
  forall pre acc,
    positional_encoding_loop params suf (total_dim1 pre) acc
    = (rs <- collect
               (map (fun kx => add_slice params (chunk_offset (pre ++ suf) (fst kx)) (snd kx))
                  (combine (seq (length pre) (length suf)) suf)) ;;
       Ok (acc ++ rs)).
Proof.
  induction suf as [|x suf IH]; intros pre acc.
  - cbn. rewrite app_nil_r. reflexivity.
  - cbn [positional_encoding_loop length seq combine map collect fst snd].
    rewrite chunk_offset_app. unfold add_slice at 1.
    destruct (np_shape_at x 1) as [n|e] eqn:En; [|reflexivity].
    cbn [rbind]. apply np_shape_at_1 in En. subst n.
    destruct (getitem_slice1 _ _ _ _ _) as [table|e]; [|reflexivity].
    cbn [rbind]. destruct (np_add x table) as [r|e]; [|reflexivity].
    cbn [rbind].
    replace (total_dim1 pre + dim1 x) with (total_dim1 (pre ++ [x])).
    2:{ rewrite total_dim1_app. cbn [total_dim1 fold_right]. lia. }
    rewrite IH. rewrite <- app_assoc. cbn [app].
    rewrite length_app. cbn [length]. rewrite Nat.add_1_r.
    destruct (collect _) as [rs|e]; [|reflexivity].
    cbn [rbind]. rewrite <- app_assoc. reflexivity.
Qed.

Lemma add_slice_fit (x params : ndarray A) (B L D M off : nat) :
  shape x = [B; L; D] -> shape params = [1; M; D] -> off + L <= M ->
  add_slice params off x = Ok (tabulate (shape x) (encoded x params off)).
Proof.
  intros Hx Hp Hfit. unfold add_slice, np_shape_at. rewrite Hx, tuple_getitem_1.
  cbn [rbind]. rewrite (slice_table params M D off L Hp). cbn [rbind].
  replace (Nat.min (off + L) M - Nat.min off M) with L by lia.
  replace (Nat.min off M) with off by lia.
  apply (np_add_slice_closed x params B L D M off Hx Hp Hfit).
Qed.

Lemma chunk_offset_S (xs : list (ndarray A)) (k : nat) (x : ndarray A) :
  nth_error xs k = Some x ->
  chunk_offset xs (S k) = chunk_offset xs k + dim1 x.
Proof.
  unfold chunk_offset. revert xs. induction k as [|k IH]; intros [|x0 xs] Hk;
    try discriminate.
  - injection Hk as ->. cbn [firstn total_dim1 fold_right]. lia.
  - cbn [nth_error] in Hk. specialize (IH xs Hk).
    change (firstn (S (S k)) (x0 :: xs)) with (x0 :: firstn (S k) xs).
    change (firstn (S k) (x0 :: xs)) with (x0 :: firstn k xs).
    cbn [total_dim1 fold_right]. fold (total_dim1 (firstn (S k) xs)).
    fold (total_dim1 (firstn k xs)). lia.
Qed.

Lemma encode_by_offsets_fit (params : ndarray A) (xs : list (ndarray A)) (M D : nat) :
  shape params = [1; M; D] ->
  Forall (fun x => exists B L, shape x = [B; L; D]) xs ->
  total_dim1 xs <= M ->
  forall suf pre, xs = pre ++ suf ->
    collect (map (fun kx => add_slice params (chunk_offset xs (fst kx)) (snd kx))
               (combine (seq (length pre) (length suf)) suf))
    = Ok (map (fun kx => tabulate (shape (snd kx))
                           (encoded (snd kx) params (chunk_offset xs (fst kx))))
            (combine (seq (length pre) (length suf)) suf)).
Proof.
  intros Hp Hall Hfit. induction suf as [|x suf IH]; intros pre Hxs.
  - reflexivity.
  - cbn [length seq combine map collect fst snd].
    assert (Hx : exists B L, shape x = [B; L; D]).
    { rewrite Forall_forall in Hall. apply Hall. rewrite Hxs.
      apply in_or_app. right. left. reflexivity. }
    destruct Hx as (B & L & Hx).
    assert (Hd : dim1 x = L) by (unfold dim1; rewrite Hx; reflexivity).
    assert (Hoff : chunk_offset xs (length pre) = total_dim1 pre).
    { rewrite Hxs. apply chunk_offset_app. }
    rewrite (add_slice_fit x params B L D M _ Hx Hp).
    2:{ rewrite Hoff. rewrite Hxs, total_dim1_app in Hfit.
        cbn [total_dim1 fold_right] in Hfit. lia. }
    cbn [rbind].
    specialize (IH (pre ++ [x])). rewrite length_app in IH. cbn [length] in IH.
    rewrite Nat.add_1_r in IH. rewrite IH.
    + reflexivity.
    + rewrite <- app_assoc. exact Hxs.
Qed.

Lemma nth_error_combine_seq {X : Type} (xs : list X) (s k : nat) (x : X) :
  nth_error xs k = Some x ->
  nth_error (combine (seq s (length xs)) xs) k = Some (s + k, x).
Proof.
  revert s k. induction xs as [|x0 xs IH]; intros s [|k] Hk; try discriminate.
  - injection Hk as ->. cbn. rewrite Nat.add_0_r. reflexivity.
  - cbn [nth_error] in Hk. cbn [length seq combine nth_error].
    rewrite (IH (S s) k Hk). f_equal. f_equal. lia.
Qed.


End PositionalEncodingFacts.

(** C6 (amended).  For a non-chunked input of shape [(batch, L, D)] and a
    table of shape [(1, max_len, D)]: when [L <= max_len] the layer returns
    the input plus rows [0 .. L-1] of the table, the same rows for every batch
    entry; when [L > max_len] and [max_len >= 2] the sum of the input and the
    clamped slice [params[:, :L, :]] cannot be broadcast and the layer raises
    ValueError, returning no array. *)
Theorem positional_encoding_non_chunked {A : Type} {dt : Dtype A}
    (x params : ndarray A) (B L D M : nat) :
  shape x = [B; L; D] -> shape params = [1; M; D] ->
  (L <= M ->
     exists y, PositionalEncoding (Single x) params = Ok (Single y)
       /\ shape y = [B; L; D] /\ wf y
       /\ forall b i f a t, get x [b; i; f] = Some a -> get params [0; i; f] = Some t ->
            get y [b; i; f] = Some (add a t))
  /\ (M < L -> 2 <= M -> PositionalEncoding (Single x) params = Raise ValueError).
Proof.
  intros Hx Hp. unfold PositionalEncoding, np_shape_at. rewrite Hx.
  change (tuple_getitem [B; L; D] 1) with (Ok (A:=nat) L). cbn [rbind].
  unfold getitem_slice1. rewrite Hp. cbn [length Nat.ltb Nat.leb].
  unfold slice_bounds. rewrite clamp_slice_nat. rewrite Nat.sub_0_r. cbn [rbind].
  split.
  - intros Hfit. replace (Nat.min L M) with L by lia.
    rewrite (np_add_slice_closed x params B L D M 0 Hx Hp) by lia. cbn [rbind].
    eexists. split; [reflexivity|]. split; [reflexivity|]. split; [apply wf_tabulate|].
    intros b i f a t Ha Ht.
    assert (Hb : in_bounds [B; L; D] [b; i; f] = true).
    { unfold get in Ha. rewrite Hx in Ha.
      destruct (in_bounds [B; L; D] [b; i; f]); [reflexivity|discriminate]. }
    rewrite get_tabulate by exact Hb. cbn [encoded Nat.add].
    unfold get0, getd. rewrite Ha, Ht. reflexivity.
  - intros Hbig HM. replace (Nat.min L M) with M by lia.
    unfold np_add. rewrite Hx, shape_tabulate, broadcast_shapes_table.
    destruct (Nat.eqb_spec L M); [lia|].
    destruct (Nat.eqb_spec L 1); [lia|].
    destruct (Nat.eqb_spec M 1); [lia|]. reflexivity.
Qed.

Lemma positional_encoding_non_chunked_witness :
  let x := NdArray [2; 2; 1] [1; 2; 3; 4]%Z in
  let params := NdArray [1; 3; 1] [10; 20; 30]%Z in
  (2 <= 3 ->
     exists y, PositionalEncoding (Single x) params = Ok (Single y)
       /\ shape y = [2; 2; 1] /\ wf y
       /\ forall b i f a t, get x [b; i; f] = Some a -> get params [0; i; f] = Some t ->
            get y [b; i; f] = Some (add a t))
  /\ (3 < 2 -> 2 <= 3 -> PositionalEncoding (Single x) params = Raise ValueError).
Proof.
  intros x params.
  apply (positional_encoding_non_chunked x params 2 2 1 3); reflexivity.
Defined.

(** C6 as stated fails: with a table of a single row ([max_len = 1]) an input
    of two time steps is accepted, the row being broadcast over both. *)
Lemma positional_encoding_beyond_table_returns :
  let x := NdArray [2; 2; 1] [1; 2; 3; 4]%Z in
  let params := NdArray [1; 1; 1] [10]%Z in
  dim1 params < dim1 x
  /\ PositionalEncoding (Single x) params
     = Ok (Single (NdArray [2; 2; 1] [11; 12; 13; 14]%Z)).
Proof. split; [cbv; lia|reflexivity]. Qed.

(** C5.  On a list of chunks the layer returns, chunk by chunk and in order,
    the chunk plus the slice [params[:, offset : offset + chunk_len, :]],
    where the offset of the first chunk is 0 and the offset of each next chunk
    is the previous offset plus the previous chunk's length, so that the
    slices are consecutive and do not overlap; the first failing chunk makes
    the call fail.  When the chunks have shapes [(B_k, L_k, D)] and fit in a
    table of shape [(1, max_len, D)], element [(b, i, f)] of result [k] is the
    chunk's element plus row [offset_k + i] of the table. *)
Theorem positional_encoding_chunked_offsets {A : Type} {dt : Dtype A}
    (params : ndarray A) (xs : list (ndarray A)) :
  PositionalEncoding (Chunked xs) params
  = (rs <- encode_by_offsets params xs ;; Ok (Chunked rs))%result
  /\ chunk_offset xs 0 = 0
  /\ (forall k x, nth_error xs k = Some x ->
        chunk_offset xs (S k) = chunk_offset xs k + dim1 x)
  /\ (forall M D,
        shape params = [1; M; D] ->
        Forall (fun x => exists B L, shape x = [B; L; D]) xs ->
        total_dim1 xs <= M ->
        exists ys,
          PositionalEncoding (Chunked xs) params = Ok (Chunked ys)
          /\ length ys = length xs
          /\ forall k x, nth_error xs k = Some x ->
               nth_error ys k
               = Some (tabulate (shape x) (encoded x params (chunk_offset xs k)))).
Proof.
  assert (E : PositionalEncoding (Chunked xs) params
              = (rs <- encode_by_offsets params xs ;; Ok (Chunked rs))%result).
  { unfold PositionalEncoding, encode_by_offsets.
    change 0 with (total_dim1 (@nil (ndarray A))) at 1.
    rewrite (positional_encoding_loop_closed params xs [] []). cbn [app length].
    destruct (collect _); reflexivity. }
  split; [exact E|]. split; [reflexivity|]. split; [apply chunk_offset_S|].
  intros M D Hp Hall Hfit. rewrite E. unfold encode_by_offsets.
  pose proof (encode_by_offsets_fit params xs M D Hp Hall Hfit xs [] eq_refl) as F.
  cbn [length] in F. rewrite F.
  cbn [rbind]. eexists. split; [reflexivity|]. split.
  - rewrite length_map, length_combine, length_seq. lia.
  - intros k x Hk. rewrite nth_error_map.
    rewrite (nth_error_combine_seq xs 0 k x Hk). reflexivity.
Qed.

Lemma positional_encoding_chunked_offsets_witness :
  let params := NdArray [1; 3; 1] [10; 20; 30]%Z in
  let xs := [NdArray [1; 2; 1] [1; 2]%Z; NdArray [1; 1; 1] [3]%Z] in
  exists ys,
    PositionalEncoding (Chunked xs) params = Ok (Chunked ys)
    /\ length ys = length xs
    /\ forall k x, nth_error xs k = Some x ->
         nth_error ys k
         = Some (tabulate (shape x) (encoded x params (chunk_offset xs k))).
Proof.
  intros params xs.
  destruct (positional_encoding_chunked_offsets params xs) as (_ & _ & _ & H).
  apply (H 3 1).
  - reflexivity.
  - repeat constructor; eexists; eexists; reflexivity.
  - cbv. lia.
Defined.

(** * EncoderDecoderMask *)

Lemma of_nat_ltb_m1 (n : nat) : (Z.of_nat n <? -1)%Z = false.
Proof. apply Z.ltb_ge. lia. Qed.

Lemma of_nat_eqb_m1 (n : nat) : (Z.of_nat n =? -1)%Z = false.
Proof. apply Z.eqb_neq. lia. Qed.

Lemma of_nat_leb_0 (n : nat) : (0 <=? Z.of_nat n)%Z = true.
Proof. apply Z.leb_le. lia. Qed.

Lemma of_nat_ltb_0 (n : nat) : (Z.of_nat n <? 0)%Z = false.
Proof. apply Z.ltb_ge. lia. Qed.

Lemma broadcast_shapes_mask (B T E : nat) :
  broadcast_shapes [B; 1; 1; E] [1; 1; T; 1] = Some [B; 1; T; E].
Proof.
  unfold broadcast_shapes. cbn [rev app broadcast_rev].
  repeat match goal with
    | |- context [?a =? ?b] => destruct (Nat.eqb_spec a b)
    end; subst; cbn [option_map rev app]; try reflexivity; try congruence.
Qed.

Section MaskFacts.
Context {A : Type} {dt : Dtype A}.

Lemma np_reshape_mask {M : Type} (pm : ndarray M) (B E : nat) :
  shape pm = [B; 1; 1; E] ->
  np_reshape pm [Z.of_nat B; 1%Z; 1%Z; Z.of_nat E] = Ok pm.
Proof.
  intros Hs. unfold np_reshape, known_dims.
  cbn [existsb filter]. rewrite !of_nat_ltb_m1, !of_nat_eqb_m1, !of_nat_leb_0.
  cbn [orb Z.ltb Z.eqb Z.leb Z.compare Pos.compare Pos.compare_cont length map].
  rewrite !Nat2Z.id. rewrite Hs, Nat.eqb_refl.
  change (Z.to_nat 1) with 1. rewrite <- Hs. destruct pm; reflexivity.
Qed.

Lemma get_astype {M : Type} (promote : M -> A) (t : ndarray M) (idx : list nat) :
  get (astype promote t) idx = option_map promote (get t idx).
Proof.
  unfold get, astype. cbn [shape data].
  destruct (in_bounds (shape t) idx); [apply nth_error_map|reflexivity].
Qed.

End MaskFacts.

(** C9.  For a padding mask of shape [(batch, 1, 1, encoder_length)] and a
    decoder input whose axis 1 has length [decoder_length], the layer returns
    an array of shape [(batch, 1, decoder_length, encoder_length)] whose slice
    at every decoder position holds the values of the padding mask, converted
    to the dtype of the sum.  The replication is done by adding an array of
    zeros, so the statement is for mask values that adding zero leaves
    unchanged (every converted boolean, every float but [-0.0]). *)
Theorem encoder_decoder_mask_replicates {A : Type} {dt : Dtype A} {M X : Type}
    (promote : M -> A) (pm : ndarray M) (dec : ndarray X) (B E T : nat) :
  shape pm = [B; 1; 1; E] ->
  np_shape_at dec 1 = Ok T ->
  (forall m, In m (data pm) -> add (promote m) zero = promote m) ->
  exists out : ndarray A,
    EncoderDecoderMask promote pm dec = Ok out
    /\ shape out = [B; 1; T; E]
    /\ wf out
    /\ forall b t e m, b < B -> t < T -> e < E ->
         get pm [b; 0; 0; e] = Some m ->
         get out [b; 0; t; e] = Some (promote m).
Proof.
  intros Hs HT Hadd. unfold EncoderDecoderMask, np_shape_at at 1 2. rewrite Hs.
  rewrite tuple_getitem_0.
  change (tuple_getitem [B; 1; 1; E] (-1)) with (Ok (A:=nat) E).
  cbn [rbind]. rewrite (np_reshape_mask pm B E Hs). cbn [rbind].
  rewrite HT. cbn [rbind].
  unfold np_add. cbn [astype shape]. rewrite Hs.
  unfold np_zeros. rewrite !shape_tabulate, broadcast_shapes_mask.
  eexists. split; [reflexivity|]. split; [reflexivity|]. split; [apply wf_tabulate|].
  intros b t e m Hb Ht He Hm.
  rewrite get_tabulate by solve_bounds.
  assert (E1 : bcast_index [B; 1; 1; E] [b; 0; t; e] = [b; 0; 0; e]).
  { unfold bcast_index. cbn.
    destruct (Nat.eqb_spec B 1), (Nat.eqb_spec E 1); repeat f_equal; lia. }
  assert (E2 : bcast_index [1; 1; T; 1] [b; 0; t; e] = [0; 0; t; 0]).
  { unfold bcast_index. cbn. destruct (Nat.eqb_spec T 1); repeat f_equal; lia. }
  rewrite E1, E2.
  unfold get0 at 2. rewrite getd_tabulate by solve_bounds.
  unfold get0, getd. rewrite get_astype.
  rewrite Hm. cbn [option_map]. f_equal. apply Hadd.
  unfold get in Hm. destruct (in_bounds (shape pm) [b; 0; 0; e]); [|discriminate].
  apply nth_error_In in Hm. exact Hm.
Qed.

Lemma encoder_decoder_mask_replicates_witness :
  let promote := fun b : bool => if b then 1%float else 0%float in
  let pm := NdArray [1; 1; 1; 5] [true; true; true; true; false] in
  let dec := NdArray [1; 3; 2] [1; 2; 3; 4; 5; 6]%Z in
  exists out : ndarray float,
    EncoderDecoderMask promote pm dec = Ok out
    /\ shape out = [1; 1; 3; 5]
    /\ wf out
    /\ forall b t e m, b < 1 -> t < 3 -> e < 5 ->
         get pm [b; 0; 0; e] = Some m ->
         get out [b; 0; t; e] = Some (promote m).
Proof.
  intros promote pm dec.
  apply (encoder_decoder_mask_replicates promote pm dec 1 5 3).
  - reflexivity.
  - reflexivity.
  - intros m _. destruct m; reflexivity.
Defined.

(** * SplitHeads and JoinHeads *)

Lemma heads_of_divisible (D : nat) (nh : Z) :
  (1 <= nh)%Z -> (Z.of_nat D mod nh = 0)%Z ->
  exists Hn d, nh = Z.of_nat Hn /\ (Z.of_nat D / nh)%Z = Z.of_nat d
               /\ D = Hn * d /\ Hn = Z.to_nat nh /\ d = D / Z.to_nat nh.
Proof.
  intros Hnh Hmod.
  exists (Z.to_nat nh), (D / Z.to_nat nh).
  assert (E : nh = Z.of_nat (Z.to_nat nh)) by lia.
  assert (Hpos : Z.to_nat nh <> 0) by lia.
  split; [exact E|].
  rewrite E at 1. rewrite <- Nat2Z.inj_div. split; [reflexivity|].
  split; [|split; reflexivity].
  rewrite E in Hmod. rewrite <- Nat2Z.inj_mod in Hmod.
  pose proof (Nat.div_mod_eq D (Z.to_nat nh)). lia.
Qed.

Section HeadsFacts.
Context {A : Type} {dt : Dtype A}.

Lemma reshape_split (x : ndarray A) (B S Hn d : nat) :
  shape x = [B; S; Hn * d] -> 1 <= B -> 1 <= Hn * d ->
  np_reshape x [Z.of_nat B; (-1)%Z; Z.of_nat Hn; Z.of_nat d]
  = Ok (NdArray [B; S; Hn; d] (data x)).
Proof.
  intros Hs HB HD. unfold np_reshape, known_dims.
  cbn [existsb filter]. rewrite !of_nat_ltb_m1, !of_nat_eqb_m1, !of_nat_leb_0.
  cbn [orb Z.ltb Z.eqb Z.leb Z.compare Pos.compare Pos.compare_cont length map app].
  rewrite !of_nat_ltb_0, !Nat2Z.id, Hs.
  cbn [numel fold_right].
  replace (B * (S * (Hn * d * 1))) with (S * (B * (Hn * (d * 1)))) by lia.
  assert (Hk : B * (Hn * (d * 1)) <> 0) by nia.
  rewrite Nat.Div0.mod_mul, Nat.div_mul by exact Hk.
  destruct (Nat.eqb_spec (B * (Hn * (d * 1))) 0); [contradiction|].
  reflexivity.
Qed.

Lemma reshape_join (y : ndarray A) (B S Hn d : nat) :
  shape y = [B; S; Hn; d] -> 1 <= B -> 1 <= Hn * d ->
  np_reshape y [Z.of_nat B; (-1)%Z; (Z.of_nat Hn * Z.of_nat d)%Z]
  = Ok (NdArray [B; S; Hn * d] (data y)).
Proof.
  intros Hs HB HD. rewrite <- Nat2Z.inj_mul. unfold np_reshape, known_dims.
  cbn [existsb filter]. rewrite !of_nat_ltb_m1, !of_nat_eqb_m1, !of_nat_leb_0.
  cbn [orb Z.ltb Z.eqb Z.leb Z.compare Pos.compare Pos.compare_cont length map app].
  rewrite !of_nat_ltb_0, !Nat2Z.id, Hs.
  cbn [numel fold_right].
  replace (B * (S * (Hn * (d * 1)))) with (S * (B * (Hn * d * 1))) by lia.
  assert (Hk : B * (Hn * d * 1) <> 0) by nia.
  rewrite Nat.Div0.mod_mul, Nat.div_mul by exact Hk.
  destruct (Nat.eqb_spec (B * (Hn * d * 1)) 0); [contradiction|].
  reflexivity.
Qed.

(** Swapping axes 1 and 2 of an array with four axes. *)
Lemma transpose_0213 (t : ndarray A) (n0 n1 n2 n3 : nat) :
  shape t = [n0; n1; n2; n3] ->
  np_transpose zero t [0; 2; 1; 3]
  = Ok (tabulate [n0; n2; n1; n3]
          (fun idx => match idx with
                      | [a; b; c; e] => get0 t [a; c; b; e]
                      | _ => zero
                      end)).
Proof.
  intros Hs. unfold np_transpose. rewrite Hs.
  change (is_axes_perm (length [n0; n1; n2; n3]) [0; 2; 1; 3]) with true.
  cbv iota. cbn [map nth]. f_equal. apply tabulate_ext. intros idx Hb.
  inv_bounds Hb. reflexivity.
Qed.

End HeadsFacts.

(** C3 (amended).  For an array [x] of shape [(batch, seq, feature_depth)]
    with [batch >= 1], [feature_depth >= 1] and [feature_depth] divisible by
    [num_heads >= 1], the head bookkeeping succeeds, [SplitHeads] returns an
    array of shape [(batch, num_heads, seq, head_depth)], and [JoinHeads] of
    it is [x] itself: the same shape and the same elements. *)
Theorem join_heads_split_heads {A : Type} {dt : Dtype A}
    (x : ndarray A) (B S D : nat) (nh : Z) :
  wf x -> shape x = [B; S; D] ->
  (1 <= nh)%Z -> (Z.of_nat D mod nh = 0)%Z ->
  1 <= B -> 1 <= D ->
  exists h y,
    head_setup x nh = Ok h
    /\ SplitHeads h x = Ok y
    /\ shape y = [B; Z.to_nat nh; S; D / Z.to_nat nh]
    /\ JoinHeads h y = Ok x.
Proof.
  intros Hwf Hs Hnh Hmod HB HD.
  destruct (heads_of_divisible D nh Hnh Hmod) as (Hn & d & En & Ed & EDd & <- & <-).
  exists (Heads B nh (Z.of_nat D / nh)).
  assert (Hsetup : head_setup x nh = Ok (Heads B nh (Z.of_nat D / nh))).
  { unfold head_setup, np_shape_at. rewrite Hs.
    change (tuple_getitem [B; S; D] (-1)) with (Ok (A:=nat) D).
    rewrite tuple_getitem_0. cbn [rbind].
    destruct (Z.eqb_spec nh 0); [lia|].
    rewrite Hmod. reflexivity. }
  rewrite Ed, En. rewrite EDd in Hs.
  assert (HD' : 1 <= Hn * d) by lia.
  unfold SplitHeads, JoinHeads. cbn [nbatch num_heads head_depth].
  rewrite (reshape_split x B S Hn d Hs HB HD'). cbn [rbind].
  rewrite (transpose_0213 _ B S Hn d) by reflexivity.
  eexists. split; [rewrite <- En, <- Ed; exact Hsetup|].
  split; [reflexivity|]. split; [reflexivity|].
  rewrite (transpose_0213 _ B Hn S d) by reflexivity. cbn [rbind].
  rewrite (reshape_join _ B S Hn d) by (try reflexivity; assumption).
  f_equal. cbn [data].
  assert (Hy : wf (NdArray [B; S; Hn; d] (data x))).
  { unfold wf in *. cbn [data shape numel fold_right] in *. rewrite Hwf, Hs.
    cbn [numel fold_right]. lia. }
  match goal with
  | |- NdArray _ (data (tabulate ?sh ?F)) = _ =>
      replace (tabulate sh F) with (NdArray [B; S; Hn; d] (data x))
  end.
  - cbn [data]. rewrite <- Hs. destruct x; reflexivity.
  - rewrite <- (tabulate_getd zero _ Hy) at 1. cbn [shape].
    apply tabulate_ext. intros idx Hb. inv_bounds Hb.
    unfold get0 at 1. rewrite getd_tabulate by solve_bounds.
    reflexivity.
Qed.

Lemma join_heads_split_heads_witness :
  let x := NdArray [1; 2; 4] [1; 2; 3; 4; 5; 6; 7; 8]%Z in
  exists h y,
    head_setup x 2 = Ok h
    /\ SplitHeads h x = Ok y
    /\ shape y = [1; Z.to_nat 2; 2; 4 / Z.to_nat 2]
    /\ JoinHeads h y = Ok x.
Proof.
  intros x.
  apply (join_heads_split_heads x 1 2 4 2); try reflexivity; lia.
Defined.

(** C3 as stated fails on an empty batch: [feature_depth = 1] is divisible by
    [num_heads = 1], but [np.reshape(x, (0, -1, 1, 1))] cannot infer the
    length of the [-1] axis and raises ValueError, so nothing is joined. *)
Lemma split_heads_empty_batch_raises :
  let x := NdArray [0; 1; 1] (@nil Z) in
  wf x
  /\ (Z.of_nat 1 mod 1 = 0)%Z
  /\ exists h, head_setup x 1 = Ok h /\ SplitHeads h x = Raise ValueError.
Proof.
  split; [reflexivity|]. split; [reflexivity|].
  eexists. split; reflexivity.
Qed.

(** * DotProductAttention *)

(** A rate that Python finds equal to zero, [0.0] or [-0.0], is neither
    positive nor at least 1. *)
Lemma zero_rate_not_positive (d : float) :
  PrimFloat.eqb d 0 = true ->
  PrimFloat.ltb 0 d = false /\ PrimFloat.leb 1 d = false.
Proof.
  rewrite FloatAxioms.eqb_spec, FloatAxioms.ltb_spec, FloatAxioms.leb_spec.
  change (Prim2SF 0) with (S754_zero false).
  change (Prim2SF 1) with (S754_finite false 4503599627370496 (-52)).
  destruct (Prim2SF d) as [s|s| |s m e]; try discriminate.
  - intros _. split; reflexivity.
  - destruct s; discriminate.
  - destruct s; discriminate.
Qed.

Section AttentionFacts.
Context {A K C : Type} {dt : Dtype A} {dc : Dtype C} {be : Backend A K}.

(** When the score, masking and softmax part returns, it has made exactly
    the backend calls of [weights_events]. *)
Lemma attention_weights_trace (q k : ndarray A) (mask : option (ndarray C))
    (tr tr' : list event) (w : ndarray A) :
  attention_weights q k mask tr = (tr', Ok w) ->
  tr' = tr ++ weights_events mask.
Proof.
  unfold attention_weights, tbind, lift, call, tret, weights_events.
  destruct (np_shape_at q (-1)) as [depth|e]; [|discriminate].
  destruct (np_swapaxes_last2 k) as [kt|e]; [|discriminate].
  destruct (np_matmul q kt) as [qk|e]; [|discriminate].
  destruct mask as [m|].
  - destruct (np_where m _ _) as [dots|e]; [|discriminate].
    destruct (logsumexp dots) as [lse|e]; [|discriminate].
    destruct (np_subtract dots lse) as [diff|e]; [|discriminate].
    intros H. injection H as <- _. rewrite <- !app_assoc. reflexivity.
  - destruct (logsumexp _) as [lse|e]; [|discriminate].
    destruct (np_subtract _ lse) as [diff|e]; [|discriminate].
    intros H. injection H as <- _. rewrite <- !app_assoc. reflexivity.
Qed.

Lemma attention_rate_too_big (q k v : ndarray A) (mask : option (ndarray C))
    (d : float) (mode : string) (rng : option K) (tr : list event) :
  PrimFloat.leb 1 d = true ->
  DotProductAttention q k v mask (Some d) mode rng tr
  = then_raise (attention_weights q k mask) ValueError tr.
Proof.
  intros Hd. unfold DotProductAttention, then_raise, tbind, lift, py_ge.
  destruct (attention_weights q k mask tr) as [tr' [w|e]]; [|reflexivity].
  rewrite Hd. reflexivity.
Qed.

Lemma attention_rate_none (q k v : ndarray A) (mask : option (ndarray C))
    (mode : string) (rng : option K) (tr : list event) :
  DotProductAttention q k v mask None mode rng tr
  = then_raise (attention_weights q k mask) TypeError tr.
Proof.
  unfold DotProductAttention, then_raise, tbind, lift, py_ge.
  destruct (attention_weights q k mask tr) as [tr' [w|e]]; reflexivity.
Qed.

Lemma then_raise_not_ok {X Y : Type} (m : traced X) (e : exn) (tr : list event) (y : Y) :
  snd (then_raise (Y:=Y) m e tr) <> Ok y.
Proof.
  unfold then_raise. destruct (m tr) as [tr' [x|e']]; discriminate.
Qed.

Lemma attention_no_dropout_step (q k v : ndarray A) (mask : option (ndarray C))
    (d : float) (mode : string) (rng : option K) (tr : list event) :
  PrimFloat.leb 1 d = false ->
  PrimFloat.ltb 0 d && String.eqb mode "train" = false ->
  DotProductAttention q k v mask (Some d) mode rng tr
  = attention_without_dropout q k v mask tr.
Proof.
  intros Hge Hdrop.
  unfold DotProductAttention, attention_without_dropout, tbind, lift, py_ge.
  destruct (attention_weights q k mask tr) as [tr' [w|e]]; [|reflexivity].
  rewrite Hge. unfold apply_dropout. rewrite Hdrop. reflexivity.
Qed.

End AttentionFacts.

(** C1 (amended).  A call with [dropout >= 1.0] returns no output.  The
    scores, the masking and the softmax are computed first; when they succeed,
    ValueError is raised right after them, the backend calls made so far
    being those of that part, with no dropout sampling and no weighted sum;
    when they fail, their own exception is raised. *)
Theorem dropout_rate_rejected_after_softmax
    {A K C : Type} {dt : Dtype A} {dc : Dtype C} {be : Backend A K}
    (q k v : ndarray A) (mask : option (ndarray C)) (d : float) (mode : string)
    (rng : option K) (tr : list event) :
  PrimFloat.leb 1 d = true ->
  DotProductAttention q k v mask (Some d) mode rng tr
  = then_raise (attention_weights q k mask) ValueError tr
  /\ (forall out, snd (DotProductAttention q k v mask (Some d) mode rng tr) <> Ok out)
  /\ (forall tr' w,
        attention_weights q k mask tr = (tr', Ok w) ->
        DotProductAttention q k v mask (Some d) mode rng tr
        = (tr ++ weights_events mask, Raise ValueError)).
Proof.
  intros Hd. pose proof (attention_rate_too_big q k v mask d mode rng tr Hd) as E.
  split; [exact E|]. split.
  - intros out. rewrite E. apply then_raise_not_ok.
  - intros tr' w Hw. rewrite E. unfold then_raise. rewrite Hw.
    rewrite (attention_weights_trace q k mask tr tr' w Hw). reflexivity.
Qed.

Lemma dropout_rate_rejected_after_softmax_witness :
  DotProductAttention (C:=bool) one_token one_token one_token None
    (Some 1.5%float) "train" (Some 3) []
  = then_raise (attention_weights one_token one_token None) ValueError []
  /\ (forall out,
        snd (DotProductAttention (C:=bool) one_token one_token one_token None
               (Some 1.5%float) "train" (Some 3) []) <> Ok out)
  /\ (forall tr' w,
        attention_weights (C:=bool) one_token one_token None [] = (tr', Ok w) ->
        DotProductAttention one_token one_token one_token None
          (Some 1.5%float) "train" (Some 3) []
        = ([] ++ weights_events (@None (ndarray bool)), Raise ValueError)).
Proof.
  apply (dropout_rate_rejected_after_softmax (C:=bool) one_token one_token one_token
           None 1.5%float "train" (Some 3) []).
  reflexivity.
Defined.

(** C1 as stated fails: with [dropout = 1.0] the ValueError is raised when
    the scores and the softmax have already been computed. *)
Lemma dropout_rate_checked_after_softmax :
  PrimFloat.leb 1 1 = true
  /\ DotProductAttention (C:=bool) one_token one_token one_token None
       (Some 1%float) "train" (Some 3) []
     = ([EvShape; EvSwapaxes; EvMatmul; EvSqrt; EvDivide; EvLogsumexp; EvSubtract;
         EvExp],
        Raise ValueError).
Proof. split; vm_compute; reflexivity. Qed.

(** C4.  The dropout rates of the specification are those of [0, 1), the
    rates for which [dropout >= 1.0] is false.  With a rate of zero ([0.0] or
    [-0.0], the floats that [== 0.0]) in any mode, and in mode ['eval'] with
    any such rate, the dropout step does nothing: the call is the attention
    with no dropout step, with the same backend calls and the same result,
    whatever the rng. *)
Theorem dropout_is_identity
    {A K C : Type} {dt : Dtype A} {dc : Dtype C} {be : Backend A K}
    (q k v : ndarray A) (mask : option (ndarray C)) (d : float) (mode : string)
    (rng : option K) (tr : list event) :
  PrimFloat.eqb d 0 = true \/ (mode = "eval"%string /\ PrimFloat.leb 1 d = false) ->
  DotProductAttention q k v mask (Some d) mode rng tr
  = attention_without_dropout q k v mask tr.
Proof.
  intros [Hz | [-> Hd]].
  - destruct (zero_rate_not_positive d Hz) as [Hpos Hge].
    apply attention_no_dropout_step; [exact Hge|].
    rewrite Hpos. reflexivity.
  - apply attention_no_dropout_step; [exact Hd|].
    change (String.eqb "eval" "train") with false. apply andb_false_r.
Qed.

Lemma dropout_is_identity_witness :
  DotProductAttention (C:=bool) one_token one_token one_token None
    (Some 0.25%float) "eval" (Some 3) []
  = attention_without_dropout one_token one_token one_token None []
  /\ DotProductAttention (C:=bool) one_token one_token one_token None
       (Some (-0)%float) "train" (Some 3) []
     = attention_without_dropout one_token one_token one_token None [].
Proof.
  split.
  - apply (dropout_is_identity (C:=bool) one_token one_token one_token None
             0.25%float "eval" (Some 3) []).
    right. split; reflexivity.
  - apply (dropout_is_identity (C:=bool) one_token one_token one_token None
             (-0)%float "train" (Some 3) []).
    left. reflexivity.
Defined.

(** C10.  A call with [dropout = None] never returns: when the scores, the
    masking and the softmax succeed, the comparison [dropout >= 1.0] raises
    TypeError (Python 3), otherwise their own exception is raised.  The
    dropout branch that follows would accept [None]: on [None] it leaves the
    weights unchanged. *)
Theorem dropout_none_raises
    {A K C : Type} {dt : Dtype A} {dc : Dtype C} {be : Backend A K}
    (q k v : ndarray A) (mask : option (ndarray C)) (mode : string)
    (rng : option K) (tr : list event) :
  DotProductAttention q k v mask None mode rng tr
  = then_raise (attention_weights q k mask) TypeError tr
  /\ (exists e, snd (DotProductAttention q k v mask None mode rng tr) = Raise e)
  /\ (forall tr' w,
        attention_weights q k mask tr = (tr', Ok w) ->
        DotProductAttention q k v mask None mode rng tr = (tr', Raise TypeError))
  /\ (forall dots tr0, apply_dropout dots None mode rng tr0 = (tr0, Ok dots)).
Proof.
  pose proof (attention_rate_none q k v mask mode rng tr) as E.
  split; [exact E|]. split; [|split].
  - rewrite E. unfold then_raise.
    destruct (attention_weights q k mask tr) as [tr' [w|e]]; eexists; reflexivity.
  - intros tr' w Hw. rewrite E. unfold then_raise. rewrite Hw. reflexivity.
  - intros dots tr0. reflexivity.
Qed.

(** * The positional-encoding table *)

Lemma broadcast_shapes_same2 (m h : nat) :
  broadcast_shapes [m; h] [m; h] = Some [m; h].
Proof.
  unfold broadcast_shapes. cbn [rev app broadcast_rev].
  rewrite !Nat.eqb_refl. reflexivity.
Qed.

Lemma broadcast_shapes_column_row (m h : nat) :
  broadcast_shapes [m; 1] [h] = Some [m; h].
Proof.
  unfold broadcast_shapes. cbn [rev app broadcast_rev].
  destruct (Nat.eqb_spec 1 h); subst; reflexivity.
Qed.

Lemma nth_error_map_seq {X : Type} (f : nat -> X) (n i : nat) :
  i < n -> nth_error (map f (seq 0 n)) i = Some (f i).
Proof.
  intros Hi. rewrite nth_error_map, nth_error_seq.
  destruct (Nat.ltb_spec i n); [reflexivity|lia].
Qed.

Lemma even_double (i : nat) : Nat.even (2 * i) = true.
Proof. rewrite Nat.even_mul. reflexivity. Qed.

Lemma half_double (i : nat) : 2 * i / 2 = i.
Proof. rewrite Nat.mul_comm. apply Nat.div_mul. lia. Qed.

Lemma odd_column_skips_even (i : nat) :
  (1 <=? 2 * i) && Nat.even (2 * i - 1) = false.
Proof.
  destruct i as [|i]; [reflexivity|].
  replace (2 * S i - 1) with (S (2 * i)) by lia.
  rewrite Nat.even_succ, <- Nat.negb_even, even_double. apply andb_false_r.
Qed.

Section TableFacts.
Context {A : Type} {dt : Dtype A} {ops : TableOps A}.

Lemma map_elements_tabulate (f : A -> A) (sh : list nat) (g : list nat -> A) :
  map_elements f (tabulate sh g) = tabulate sh (fun idx => f (g idx)).
Proof. unfold map_elements, tabulate. cbn [shape data]. rewrite map_map. reflexivity. Qed.

Lemma get_leading_axis {X : Type} (sh : list nat) (l : list X) (idx : list nat) :
  get (NdArray (1 :: sh) l) (0 :: idx) = get (NdArray sh l) idx.
Proof.
  unfold get. cbn [shape data in_bounds ravel]. change (0 <? 1) with true.
  cbn [andb Nat.mul Nat.add]. reflexivity.
Qed.

(** [position * div_term], element by element. *)
Lemma table_angles (D m : nat) :
  np_multiply (NdArray [m; 1] (map float_of_int (seq 0 m)))
    (map_elements table_exp
       (map_elements (fun a => table_mul a (neg_log_scale D)) (np_arange_step D 2)))
  = Ok (tabulate [m; (D + 1) / 2]
          (fun idx => match idx with
                      | [p; i] => table_angle D p i
                      | _ => zero
                      end)).
Proof.
  unfold np_multiply, map_elements, np_arange_step. cbn [shape data].
  replace (D + 2 - 1) with (D + 1) by lia.
  rewrite broadcast_shapes_column_row. f_equal.
  apply tabulate_ext. intros idx Hb. inv_bounds Hb.
  unfold bcast_index. cbn [length Nat.sub skipn combine map fst snd].
  unfold table_angle, get0, getd, get. cbn [shape data in_bounds ravel numel fold_right].
  replace (if m =? 1 then 0 else i) with i by (destruct (Nat.eqb_spec m 1); lia).
  replace (if (D + 1) / 2 =? 1 then 0 else i0) with i0
    by (destruct (Nat.eqb_spec ((D + 1) / 2) 1); lia).
  change (1 =? 1) with true. cbv iota. change (0 <? 1) with true.
  bounds_true. cbn [andb].
  replace (i * (1 * 1) + (0 * 1 + 0)) with i by lia.
  replace (i0 * 1 + 0) with i0 by lia.
  rewrite !map_map, !nth_error_map_seq by assumption. reflexivity.
Qed.

Lemma setitem_columns_fits (pe value : ndarray A) (m D start : nat) :
  shape pe = [m; D] -> shape value = [m; strided_count D start] ->
  setitem_columns pe start value
  = Ok (tabulate [m; D]
          (fun idx =>
             match idx with
             | [p; j] =>
                 if (start <=? j) && Nat.even (j - start)
                 then to_float32 (get0 value (bcast_index (shape value) [p; (j - start) / 2]))
                 else get0 pe [p; j]
             | _ => zero
             end)).
Proof.
  intros Hpe Hv. unfold setitem_columns. rewrite Hpe, Hv.
  rewrite broadcast_shapes_same2. 
  cbn [shape_eqb]. rewrite !Nat.eqb_refl. reflexivity.
Qed.

Lemma even_half (D : nat) : Nat.even D = true -> (D + 1) / 2 = D / 2 /\ D = 2 * (D / 2).
Proof.
  intros H. apply Nat.even_spec in H. destruct H as [k ->].
  rewrite (Nat.mul_comm 2 k), Nat.div_mul by lia.
  split; [|lia].
  replace (k * 2 + 1) with (1 + k * 2) by lia.
  rewrite Nat.div_add by lia. reflexivity.
Qed.

End TableFacts.

Lemma half_double_succ (i : nat) : (2 * i + 1) / 2 = i.
Proof.
  replace (2 * i + 1) with (1 + i * 2) by lia.
  rewrite Nat.div_add by lia. reflexivity.
Qed.

Lemma even_double_succ (i : nat) : Nat.even (2 * i + 1) = false.
Proof.
  replace (2 * i + 1) with (S (2 * i)) by lia.
  rewrite Nat.even_succ, <- Nat.negb_even, even_double. reflexivity.
Qed.

Lemma even_depth_table_closed {A : Type} {dt : Dtype A} {ops : TableOps A}
    (s : input_shape) (max_len D : nat) :
  feature_depth_of s = Ok D -> Nat.even D = true ->
  positional_encoding_new_params s max_len
  = Ok (NdArray [1; max_len; D] (data (tabulate [max_len; D] (table_entry D)))).
Proof.
  intros Hs Hev. unfold positional_encoding_new_params. rewrite Hs. cbn [rbind].
  rewrite table_angles. cbn [rbind]. rewrite !map_elements_tabulate.
  destruct (even_half D Hev) as [Hh HD].
  rewrite (setitem_columns_fits _ _ max_len D 0).
  2:{ reflexivity. }
  2:{ rewrite shape_tabulate. unfold strided_count. rewrite Nat.sub_0_r. reflexivity. }
  cbn [rbind].
  rewrite (setitem_columns_fits _ _ max_len D 1).
  2:{ reflexivity. }
  2:{ rewrite shape_tabulate. unfold strided_count. rewrite Hh.
      do 2 f_equal. destruct D; [reflexivity|f_equal; lia]. }
  cbn [rbind]. rewrite !shape_tabulate.
  do 3 f_equal. apply tabulate_ext. intros idx Hb. inv_bounds Hb.
  match goal with
  | Hp : ?p < max_len, Hj : ?j < D |- _ =>
      destruct (Nat.even j) eqn:Ej;
      [ apply Nat.even_spec in Ej; destruct Ej as [c ->]
      | assert (Eo : Nat.odd j = true) by (rewrite <- Nat.negb_even, Ej; reflexivity);
        apply Nat.odd_spec in Eo; destruct Eo as [c ->] ];
      assert (Hc : c < (D + 1) / 2) by (rewrite Hh; lia)
  end.
  - cbn [table_entry]. rewrite odd_column_skips_even.
    unfold get0 at 1. rewrite getd_tabulate by solve_bounds.
    rewrite Nat.sub_0_r, even_double, half_double. cbn [Nat.leb andb].
    rewrite bcast_index_self by solve_bounds.
    unfold get0. rewrite getd_tabulate by solve_bounds. reflexivity.
  - cbn [table_entry]. rewrite even_double_succ, half_double_succ.
    replace (2 * c + 1 - 1) with (2 * c) by lia.
    rewrite even_double, half_double.
    replace (1 <=? 2 * c + 1) with true by (symmetry; apply Nat.leb_le; lia).
    cbn [andb]. rewrite bcast_index_self by solve_bounds.
    unfold get0. rewrite getd_tabulate by solve_bounds. reflexivity.
Qed.

Lemma table_entry_get {A : Type} {dt : Dtype A} {ops : TableOps A}
    (max_len D p j : nat) :
  p < max_len -> j < D ->
  get (NdArray [1; max_len; D] (data (tabulate [max_len; D] (table_entry D)))) [0; p; j]
  = Some (table_entry D [p; j]).
Proof.
  intros Hp Hj. rewrite get_leading_axis.
  change (NdArray [max_len; D] (data (tabulate [max_len; D] ?f)))
    with (tabulate [max_len; D] f).
  apply get_tabulate. solve_bounds.
Qed.

(** X1.  When the feature depth read from the input shape (the last entry
    of the shape, or of the first chunk's shape) is even, the table has shape
    [(1, max_len, depth)]; its column [2 i] holds the sine and its column
    [2 i + 1] the cosine of [pos * exp (2 i * -(log 10000 / depth))], rounded
    to float32. *)
Theorem positional_table_entries {A : Type} {dt : Dtype A} {ops : TableOps A}
    (s : input_shape) (max_len D : nat) :
  feature_depth_of s = Ok D -> Nat.even D = true ->
  exists t : ndarray A,
    positional_encoding_new_params s max_len = Ok t
    /\ shape t = [1; max_len; D]
    /\ wf t
    /\ forall p i, p < max_len -> 2 * i + 1 < D ->
         get t [0; p; 2 * i] = Some (to_float32 (table_sin (table_angle D p i)))
         /\ get t [0; p; 2 * i + 1] = Some (to_float32 (table_cos (table_angle D p i))).
Proof.
  intros Hs Hev. rewrite (even_depth_table_closed s max_len D Hs Hev).
  eexists. split; [reflexivity|]. split; [reflexivity|]. split.
  { unfold wf. cbn [shape data tabulate numel fold_right].
    rewrite length_map, length_indices. cbn [numel fold_right]. lia. }
  intros p i Hp Hi.
  rewrite !table_entry_get by lia. cbn [table_entry].
  rewrite even_double, half_double, even_double_succ, half_double_succ.
  split; reflexivity.
Qed.

Lemma positional_table_entries_witness :
  exists t : ndarray sym,
    positional_encoding_new_params (ChunkShapes [[2; 3; 4]; [2; 5; 4]]) 6 = Ok t
    /\ shape t = [1; 6; 4]
    /\ wf t
    /\ forall p i, p < 6 -> 2 * i + 1 < 4 ->
         get t [0; p; 2 * i] = Some (to_float32 (table_sin (table_angle 4 p i)))
         /\ get t [0; p; 2 * i + 1] = Some (to_float32 (table_cos (table_angle 4 p i))).
Proof.
  apply (positional_table_entries (ChunkShapes [[2; 3; 4]; [2; 5; 4]]) 6 4);
    reflexivity.
Defined.

(** X2.  For an odd feature depth of 3 or more the table cannot be built:
    the cosines have one column more than the odd-numbered columns of the
    table, and the assignment [pe[:, 1::2] = ...] raises ValueError. *)
Theorem positional_table_odd_depth_raises {A : Type} {dt : Dtype A} {ops : TableOps A}
    (s : input_shape) (max_len D : nat) :
  feature_depth_of s = Ok D -> Nat.odd D = true -> 3 <= D ->
  positional_encoding_new_params (A:=A) s max_len = Raise ValueError.
Proof.
  intros Hs Hodd HD. unfold positional_encoding_new_params. rewrite Hs. cbn [rbind].
  rewrite table_angles. cbn [rbind]. rewrite !map_elements_tabulate.
  rewrite (setitem_columns_fits _ _ max_len D 0).
  2:{ reflexivity. }
  2:{ rewrite shape_tabulate. unfold strided_count. rewrite Nat.sub_0_r. reflexivity. }
  cbn [rbind].
  unfold setitem_columns. rewrite !shape_tabulate.
  apply Nat.odd_spec in Hodd. destruct Hodd as [k ->].
  unfold strided_count.
  replace (2 * k + 1 + 1) with (k * 2 + 1 * 2) by lia.
  replace (2 * k + 1 - 1 + 1) with (1 + k * 2) by lia.
  rewrite <- Nat.mul_add_distr_r, Nat.div_mul, Nat.div_add by lia.
  change (1 / 2) with 0. cbn [Nat.add].
  unfold broadcast_shapes. cbn [rev app broadcast_rev].
  rewrite Nat.eqb_refl.
  destruct (Nat.eqb_spec (k + 1) k); [lia|].
  destruct (Nat.eqb_spec (k + 1) 1); [lia|].
  destruct (Nat.eqb_spec k 1).
  - cbn [option_map rev app shape_eqb]. rewrite Nat.eqb_refl. cbn [andb].
    destruct (Nat.eqb_spec (k + 1) k); [lia|]. reflexivity.
  - reflexivity.
Qed.

Lemma positional_table_odd_depth_raises_witness :
  positional_encoding_new_params (A:=sym) (OneShape [2; 3; 5]) 6 = Raise ValueError.
Proof.
  apply (positional_table_odd_depth_raises (OneShape [2; 3; 5]) 6 5);
    [reflexivity|reflexivity|lia].
Defined.

(** * PaddingMask, the declared shapes, and the masks composed *)

Lemma tuple_getitem_last2 {X : Type} (a b : X) :
  tuple_getitem [a; b] (-1) = Ok b.
Proof. reflexivity. Qed.

Lemma np_reshape_4_shape {M : Type} (t y : ndarray M) (b e : nat) :
  np_reshape t [Z.of_nat b; 1%Z; 1%Z; Z.of_nat e] = Ok y ->
  shape y = [b; 1; 1; e] /\ data y = data t.
Proof.
  unfold np_reshape, known_dims.
  cbn [existsb filter]. rewrite !of_nat_ltb_m1, !of_nat_eqb_m1, !of_nat_leb_0.
  cbn [orb Z.ltb Z.eqb Z.leb Z.compare Pos.compare Pos.compare_cont length map].
  rewrite !Nat2Z.id. change (Z.to_nat 1) with 1.
  destruct (_ =? _); [|discriminate].
  intros H. injection H as <-. split; reflexivity.
Qed.

Lemma np_reshape_4_mismatch {M : Type} (t : ndarray M) (b e : nat) :
  numel (shape t) <> b * e ->
  np_reshape t [Z.of_nat b; 1%Z; 1%Z; Z.of_nat e] = Raise ValueError.
Proof.
  intros Hne. unfold np_reshape, known_dims.
  cbn [existsb filter]. rewrite !of_nat_ltb_m1, !of_nat_eqb_m1, !of_nat_leb_0.
  cbn [orb Z.ltb Z.eqb Z.leb Z.compare Pos.compare Pos.compare_cont length map].
  rewrite !Nat2Z.id. change (Z.to_nat 1) with 1.
  destruct (Nat.eqb_spec (numel (shape t)) (numel [b; 1; 1; e])) as [E|]; [|reflexivity].
  cbn [numel fold_right] in E. fold (numel (shape t)) in E. lia.
Qed.

Section MaskFacts.
Context {A : Type} {dt : Dtype A}.

Lemma padding_mask_closed (neq : A -> A -> bool) (x : ndarray A) (pad : A) (B L : nat) :
  shape x = [B; L] ->
  PaddingMask neq x pad
  = Ok (NdArray [B; 1; 1; L] (map (fun a => neq a pad) (data x))).
Proof.
  intros Hs. unfold PaddingMask, np_shape_at. rewrite Hs.
  rewrite tuple_getitem_0, tuple_getitem_last2. cbn [rbind].
  unfold np_reshape, known_dims.
  cbn [existsb filter]. rewrite !of_nat_ltb_m1, !of_nat_eqb_m1, !of_nat_leb_0.
  cbn [orb Z.ltb Z.eqb Z.leb Z.compare Pos.compare Pos.compare_cont length map shape data].
  rewrite !Nat2Z.id. change (Z.to_nat 1) with 1.
  replace (numel [B; L] =? numel [B; 1; 1; L]) with true; [reflexivity|].
  symmetry. apply Nat.eqb_eq. cbn [numel fold_right]. lia.
Qed.

Lemma encoder_decoder_mask_closed {M X : Type} (promote : M -> A)
    (pm : ndarray M) (dec : ndarray X) (B E T : nat) :
  shape pm = [B; 1; 1; E] -> np_shape_at dec 1 = Ok T ->
  EncoderDecoderMask promote pm dec
  = Ok (tabulate [B; 1; T; E]
          (fun idx => add (get0 (astype promote pm) (bcast_index [B; 1; 1; E] idx))
                          (get0 (np_zeros [1; 1; T; 1]) (bcast_index [1; 1; T; 1] idx)))).
Proof.
  intros Hs HT. unfold EncoderDecoderMask, np_shape_at at 1 2. rewrite Hs.
  rewrite tuple_getitem_0.
  change (tuple_getitem [B; 1; 1; E] (-1)) with (Ok (A:=nat) E).
  cbn [rbind]. rewrite (np_reshape_mask pm B E Hs). cbn [rbind].
  rewrite HT. cbn [rbind].
  unfold np_add. cbn [astype shape]. rewrite Hs.
  unfold np_zeros. rewrite !shape_tabulate, broadcast_shapes_mask.
  reflexivity.
Qed.

End MaskFacts.

(** X3.  On a batch of token ids of shape [(B, L)], [PaddingMask] returns a
    boolean array of shape [(B, 1, 1, L)] whose entry [(b, 0, 0, k)] tells
    whether token [k] of row [b] differs from the padding id. *)
Theorem padding_mask_entries {A : Type} {dt : Dtype A}
    (neq : A -> A -> bool) (x : ndarray A) (pad : A) (B L : nat) :
  shape x = [B; L] ->
  wf x ->
  exists m : ndarray bool,
    PaddingMask neq x pad = Ok m
    /\ shape m = [B; 1; 1; L]
    /\ wf m
    /\ forall b k a, get x [b; k] = Some a ->
         get m [b; 0; 0; k] = Some (neq a pad).
Proof.
  intros Hs Hwf. rewrite (padding_mask_closed neq x pad B L Hs).
  eexists. split; [reflexivity|]. split; [reflexivity|]. split.
  - unfold wf in *. cbn [shape data]. rewrite length_map, Hwf, Hs.
    cbn [numel fold_right]. lia.
  - intros b k a. unfold get. cbn [shape data]. rewrite Hs.
    cbn [in_bounds ravel numel fold_right]. change (0 <? 1) with true.
    destruct (b <? B), (k <? L); cbn [andb]; try discriminate.
    replace (b * (1 * (1 * (L * 1))) + (0 * (1 * (L * 1)) + (0 * (L * 1) + (k * 1 + 0))))
      with (b * (L * 1) + (k * 1 + 0)) by lia.
    intros H. rewrite nth_error_map, H. reflexivity.
Qed.

Lemma padding_mask_entries_witness :
  let x := NdArray [2; 3] [5; 6; 0; 7; 0; 0]%Z in
  shape x = [2; 3] /\ wf x
  /\ exists m : ndarray bool,
       PaddingMask (fun a b => negb (a =? b)%Z) x 0%Z = Ok m
       /\ shape m = [2; 1; 1; 3]
       /\ wf m
       /\ forall b k a, get x [b; k] = Some a ->
            get m [b; 0; 0; k] = Some (negb (a =? 0)%Z).
Proof.
  split; [reflexivity|]. split; [reflexivity|].
  apply (padding_mask_entries (fun a b => negb (a =? b)%Z)
           (NdArray [2; 3] [5; 6; 0; 7; 0; 0]%Z) 0%Z 2 3); reflexivity.
Defined.

(** X4.  [PaddingMask] keeps only the first and the last axis: on an input
    whose number of elements is not [shape[0] * shape[-1]] (an input with a
    middle axis of length other than 1) the layer still declares the output
    shape [(shape[0], 1, 1, shape[-1])], but the call raises ValueError. *)
Theorem padding_mask_size_mismatch {A : Type} {dt : Dtype A}
    (neq : A -> A -> bool) (x : ndarray A) (pad : A) (b l : nat) :
  np_shape_at x 0 = Ok b ->
  np_shape_at x (-1) = Ok l ->
  numel (shape x) <> b * l ->
  PaddingMaskShape (shape x) = Ok [b; 1; 1; l]
  /\ PaddingMask neq x pad = Raise ValueError.
Proof.
  intros Hb Hl Hne. split.
  - unfold PaddingMaskShape. unfold np_shape_at in Hb, Hl. rewrite Hb, Hl. reflexivity.
  - unfold PaddingMask. rewrite Hb, Hl. cbn [rbind].
    apply np_reshape_4_mismatch. exact Hne.
Qed.

Lemma padding_mask_size_mismatch_witness :
  let x := NdArray [2; 2; 3] [5; 6; 0; 7; 0; 0; 1; 2; 3; 4; 5; 6]%Z in
  np_shape_at x 0 = Ok 2 /\ np_shape_at x (-1) = Ok 3
  /\ numel (shape x) <> 2 * 3
  /\ PaddingMaskShape (shape x) = Ok [2; 1; 1; 3]
  /\ PaddingMask (fun a b => negb (a =? b)%Z) x 0%Z = Raise ValueError.
Proof.
  split; [reflexivity|]. split; [reflexivity|]. split; [cbv; lia|].
  apply (padding_mask_size_mismatch (fun a b => negb (a =? b)%Z)
           (NdArray [2; 2; 3] [5; 6; 0; 7; 0; 0; 1; 2; 3; 4; 5; 6]%Z) 0%Z 2 3);
    [reflexivity|reflexivity|cbv; lia].
Defined.

(** X5.  Whenever [CausalMask], [PaddingMask] or [EncoderDecoderMask]
    returns an array, the output shape the layer declares for the shapes of
    its inputs is the shape of that array. *)
Theorem declared_shapes_agree {A M X : Type} {dt : Dtype A}
    (neq : A -> A -> bool) (promote : M -> A)
    (x : ndarray A) (axis : Z) (pad : A) (pm : ndarray M) (dec : ndarray X) :
  (forall m, CausalMask x axis = Ok m -> CausalMaskShape (shape x) axis = Ok (shape m))
  /\ (forall m, PaddingMask neq x pad = Ok m -> PaddingMaskShape (shape x) = Ok (shape m))
  /\ (forall m, EncoderDecoderMask promote pm dec = Ok m ->
        EncoderDecoderMaskShape (shape pm) (shape dec) = Ok (shape m)).
Proof.
  split; [|split].
  - intros m. unfold CausalMask, CausalMaskShape, np_shape_at.
    destruct (tuple_getitem (shape x) axis) as [n|e]; [|discriminate].
    cbn [rbind]. intros H. injection H as <-. reflexivity.
  - intros m. unfold PaddingMask, PaddingMaskShape, np_shape_at.
    destruct (tuple_getitem (shape x) 0) as [b|e]; [|discriminate].
    destruct (tuple_getitem (shape x) (-1)) as [l|e]; [|discriminate].
    cbn [rbind]. intros H. apply np_reshape_4_shape in H. destruct H as [-> _].
    reflexivity.
  - intros m. unfold EncoderDecoderMask, EncoderDecoderMaskShape, np_shape_at.
    destruct (tuple_getitem (shape pm) 0) as [b|e]; [|discriminate].
    destruct (tuple_getitem (shape pm) (-1)) as [l|e]; [|discriminate].
    cbn [rbind].
    destruct (np_reshape pm _) as [y|e] eqn:Ey; [|discriminate].
    apply np_reshape_4_shape in Ey. destruct Ey as [Hy _].
    destruct (tuple_getitem (shape dec) 1) as [t|e]; [|discriminate].
    cbn [rbind]. unfold np_add, astype, np_zeros. cbn [shape].
    rewrite Hy, shape_tabulate, broadcast_shapes_mask.
    intros H. injection H as <-. reflexivity.
Qed.

(** X6.  [PaddingMask] followed by [EncoderDecoderMask]: for token ids of
    shape [(B, L)] and a decoder input with [T] positions, the result has
    shape [(B, 1, T, L)] and its entry [(b, 0, t, k)] is the promoted truth
    value of "token [k] of row [b] is not padding", for every decoder
    position [t], provided that adding zero leaves a promoted value as it
    is. *)
Theorem padding_then_encoder_decoder_mask {A X : Type} {dt : Dtype A}
    (neq : A -> A -> bool) (promote : bool -> A)
    (x : ndarray A) (pad : A) (dec : ndarray X) (B L T : nat) :
  shape x = [B; L] ->
  np_shape_at dec 1 = Ok T ->
  (forall v : bool, add (promote v) zero = promote v) ->
  exists pm out,
    PaddingMask neq x pad = Ok pm
    /\ EncoderDecoderMask promote pm dec = Ok out
    /\ shape out = [B; 1; T; L]
    /\ forall b t k a, t < T -> get x [b; k] = Some a ->
         get out [b; 0; t; k] = Some (promote (neq a pad)).
Proof.
  intros Hs HT Hadd. rewrite (padding_mask_closed neq x pad B L Hs).
  eexists. eexists. split; [reflexivity|].
  rewrite (encoder_decoder_mask_closed promote
             (NdArray [B; 1; 1; L] (map (fun a => neq a pad) (data x)))
             dec B L T eq_refl HT).
  split; [reflexivity|]. split; [reflexivity|].
  intros b t k a Ht Ha.
  assert (Hb : b < B /\ k < L).
  { unfold get in Ha. rewrite Hs in Ha. cbn [in_bounds] in Ha.
    destruct (Nat.ltb_spec b B), (Nat.ltb_spec k L); cbn [andb] in Ha;
      try discriminate. split; assumption. }
  destruct Hb as [Hb Hk].
  rewrite get_tabulate by solve_bounds.
  assert (E1 : bcast_index [B; 1; 1; L] [b; 0; t; k] = [b; 0; 0; k]).
  { unfold bcast_index. cbn.
    destruct (Nat.eqb_spec B 1), (Nat.eqb_spec L 1); repeat f_equal; lia. }
  assert (E2 : bcast_index [1; 1; T; 1] [b; 0; t; k] = [0; 0; t; 0]).
  { unfold bcast_index. cbn. destruct (Nat.eqb_spec T 1); repeat f_equal; lia. }
  rewrite E1, E2. unfold get0 at 2. unfold np_zeros.
  rewrite getd_tabulate by solve_bounds.
  unfold get0, getd. rewrite get_astype.
  unfold get. cbn [shape data in_bounds ravel numel fold_right].
  change (0 <? 1) with true. bounds_true. cbn [andb].
  replace (b * (1 * (1 * (L * 1))) + (0 * (1 * (L * 1)) + (0 * (L * 1) + (k * 1 + 0))))
    with (b * (L * 1) + (k * 1 + 0)) by lia.
  unfold get in Ha. rewrite Hs in Ha. cbn [in_bounds ravel numel fold_right] in Ha.
  destruct ((b <? B) && ((k <? L) && true)); [|discriminate].
  rewrite nth_error_map, Ha. cbn [option_map]. rewrite Hadd. reflexivity.
Qed.

Lemma padding_then_encoder_decoder_mask_witness :
  let x := NdArray [2; 3] [5; 6; 0; 7; 0; 0]%Z in
  let dec := NdArray [2; 4] [1; 2; 3; 4; 5; 6; 7; 8]%Z in
  let promote := fun v : bool => if v then 1%Z else 0%Z in
  shape x = [2; 3] /\ np_shape_at dec 1 = Ok 4
  /\ (forall v : bool, add (promote v) zero = promote v)
  /\ exists pm out,
       PaddingMask (fun a b => negb (a =? b)%Z) x 0%Z = Ok pm
       /\ EncoderDecoderMask promote pm dec = Ok out
       /\ shape out = [2; 1; 4; 3]
       /\ forall b t k a, t < 4 -> get x [b; k] = Some a ->
            get out [b; 0; t; k] = Some (promote (negb (a =? 0)%Z)).
Proof.
  split; [reflexivity|]. split; [reflexivity|].
  split; [intros [|]; reflexivity|].
  apply (padding_then_encoder_decoder_mask (fun a b => negb (a =? b)%Z)
           (fun v : bool => if v then 1%Z else 0%Z)
           (NdArray [2; 3] [5; 6; 0; 7; 0; 0]%Z) 0%Z
           (NdArray [2; 4] [1; 2; 3; 4; 5; 6; 7; 8]%Z) 2 3 4);
    [reflexivity|reflexivity|intros [|]; reflexivity].
Defined.

(** * ShiftRight: other ranks, empty sequences and errors *)

Section ShiftRightMore.
Context {A : Type} {dt : Dtype A}.

Lemma shift_loop_prefix (pre : list (ndarray A)) (B : nat) (rest : list nat) :
  Forall (is_chunk B rest) pre ->
  forall prev acc l,
  exists prev' acc',
    shift_right_loop (pre ++ l) (tabulate (B :: rest) (last_step prev)) acc
    = shift_right_loop l (tabulate (B :: rest) (last_step prev')) acc'.
Proof.
  induction 1 as [|x xs (L & HL & Hs) Hxs IH]; intros prev acc l.
  - exists prev, acc. reflexivity.
  - cbn [app]. rewrite (shift_step prev x B L rest (xs ++ l) acc HL Hs).
    apply IH.
Qed.

Lemma shift_loop_empty_chunk (x : ndarray A) (B : nat) (rest : list nat)
    (last_value : ndarray A) (suf acc : list (ndarray A)) :
  shape x = B :: 0 :: rest -> shape last_value = B :: rest ->
  shift_right_loop (x :: suf) last_value acc = Raise IndexError.
Proof.
  intros Hs Hl. cbn [shift_right_loop]. unfold newaxis1. rewrite Hl. cbn [rbind].
  unfold np_concatenate1. cbn [shape forallb same_off_axis1].
  rewrite Hs. cbn [same_off_axis1]. rewrite !Nat.eqb_refl, !shape_eqb_refl.
  cbn [andb rbind].
  unfold getitem_int1. rewrite Hs. reflexivity.
Qed.

End ShiftRightMore.

(** X7.  The right shift of a non-chunked input of any rank at least 2, token
    ids of shape [(batch, L)] included, and of any length [L], zero
    included: the result has the shape of the input, its time step 0 is
    zero and its time step [i >= 1] is time step [i - 1] of the input. *)
Theorem shift_right_any_rank {A : Type} {dt : Dtype A}
    (x : ndarray A) (B L : nat) (rest : list nat) :
  shape x = B :: L :: rest ->
  wf x ->
  exists y : ndarray A,
    ShiftRight (Single x) = Ok (Single y)
    /\ shape y = shape x
    /\ wf y
    /\ forall b i r, b < B -> i < L -> in_bounds rest r = true ->
         get y (b :: i :: r)
         = if i =? 0 then Some zero else get x (b :: i - 1 :: r).
Proof.
  intros Hs Hwf. rewrite (shift_right_single x B L rest Hs).
  eexists. split; [reflexivity|]. split; [rewrite Hs; reflexivity|].
  split; [apply wf_tabulate|].
  intros b i r Hb Hi Hr. rewrite get_tabulate by solve_bounds.
  cbn [shifted_chunk]. destruct (Nat.eqb_spec i 0); [reflexivity|].
  unfold get0, getd.
  destruct (get_in_bounds x (b :: i - 1 :: r) Hwf) as [a Ha].
  { rewrite Hs. solve_bounds. }
  rewrite Ha. reflexivity.
Qed.

Lemma shift_right_any_rank_witness :
  let x := NdArray [2; 3] [1; 2; 3; 4; 5; 6]%Z in
  shape x = [2; 3] /\ wf x
  /\ exists y : ndarray Z,
       ShiftRight (Single x) = Ok (Single y)
       /\ shape y = shape x
       /\ wf y
       /\ forall b i r, b < 2 -> i < 3 -> in_bounds [] r = true ->
            get y (b :: i :: r)
            = if i =? 0 then Some zero else get x (b :: i - 1 :: r).
Proof.
  split; [reflexivity|]. split; [reflexivity|].
  apply (shift_right_any_rank (NdArray [2; 3] [1; 2; 3; 4; 5; 6]%Z) 2 3 []);
    reflexivity.
Defined.

(** X8.  The right shift does not look ahead: when two inputs of the same
    shape agree on the time steps before [n], their shifts agree on the time
    steps up to and including [n]. *)
Theorem shift_right_causal {A : Type} {dt : Dtype A}
    (x x' : ndarray A) (B L n : nat) (rest : list nat) :
  shape x = B :: L :: rest ->
  shape x' = B :: L :: rest ->
  (forall b j r, j < n -> get x (b :: j :: r) = get x' (b :: j :: r)) ->
  exists y y' : ndarray A,
    ShiftRight (Single x) = Ok (Single y)
    /\ ShiftRight (Single x') = Ok (Single y')
    /\ forall b j r, j <= n -> get y (b :: j :: r) = get y' (b :: j :: r).
Proof.
  intros Hs Hs' Hagree.
  rewrite (shift_right_single x B L rest Hs), (shift_right_single x' B L rest Hs').
  eexists. eexists. split; [reflexivity|]. split; [reflexivity|].
  intros b j r Hj.
  destruct (in_bounds (B :: L :: rest) (b :: j :: r)) eqn:Hb.
  - rewrite !get_tabulate by exact Hb. cbn [shifted_chunk].
    destruct (Nat.eqb_spec j 0); [reflexivity|].
    unfold get0, getd. rewrite Hagree by lia. reflexivity.
  - rewrite !get_out_of_bounds by (rewrite shape_tabulate; exact Hb). reflexivity.
Qed.

Lemma shift_right_causal_witness :
  let x := NdArray [1; 3] [1; 2; 3]%Z in
  let x' := NdArray [1; 3] [1; 2; 9]%Z in
  shape x = [1; 3] /\ shape x' = [1; 3]
  /\ (forall b j r, j < 2 -> get x (b :: j :: r) = get x' (b :: j :: r))
  /\ exists y y' : ndarray Z,
       ShiftRight (Single x) = Ok (Single y)
       /\ ShiftRight (Single x') = Ok (Single y')
       /\ forall b j r, j <= 2 -> get y (b :: j :: r) = get y' (b :: j :: r).
Proof.
  assert (H : forall b j r, j < 2 ->
            get (NdArray [1; 3] [1; 2; 3]%Z) (b :: j :: r)
            = get (NdArray [1; 3] [1; 2; 9]%Z) (b :: j :: r)).
  { intros b j r Hj. destruct j as [|[|j]]; [| |lia];
      destruct b as [|b]; destruct r; reflexivity. }
  split; [reflexivity|]. split; [reflexivity|]. split; [exact H|].
  apply (shift_right_causal (NdArray [1; 3] [1; 2; 3]%Z)
           (NdArray [1; 3] [1; 2; 9]%Z) 1 3 2 []);
    [reflexivity|reflexivity|exact H].
Defined.

(** X9.  A chunk without time steps makes the chunked right shift raise
    IndexError (from [chunk[:, -1]]), wherever it stands after chunks with at
    least one time step each, while the non-chunked right shift of the same
    array returns it unchanged. *)
Theorem shift_right_empty_chunk {A : Type} {dt : Dtype A}
    (pre suf : list (ndarray A)) (x : ndarray A)
    (B : nat) (rest : list nat) :
  Forall (is_chunk B rest) pre ->
  shape x = B :: 0 :: rest ->
  wf x ->
  ShiftRight (Chunked (pre ++ x :: suf)) = Raise IndexError
  /\ ShiftRight (Single x) = Ok (Single x).
Proof.
  intros Hpre Hs Hwf. split.
  - destruct pre as [|x0 pre].
    + cbn [app]. unfold ShiftRight. rewrite tuple_getitem_0. cbn [rbind].
      unfold getitem_int1. rewrite Hs. reflexivity.
    + pose proof (Forall_inv Hpre) as (L & HL & Hs0).
      cbn [app]. unfold ShiftRight. rewrite tuple_getitem_0. cbn [rbind].
      unfold getitem_int1. rewrite Hs0, py_index_minus_one by assumption.
      cbn [rbind]. unfold np_zeros_like, np_zeros. rewrite shape_tabulate.
      change (tabulate (B :: rest) (fun _ : list nat => zero))
        with (tabulate (B :: rest) (last_step (A:=A) None)).
      change (x0 :: pre ++ x :: suf) with ((x0 :: pre) ++ x :: suf).
      destruct (shift_loop_prefix (x0 :: pre) B rest Hpre None [] (x :: suf))
        as (prev' & acc' & ->).
      rewrite (shift_loop_empty_chunk x B rest); [reflexivity|exact Hs|].
      apply shape_tabulate.
  - rewrite (shift_right_single x B 0 rest Hs). do 2 f_equal.
    apply ndarray_ext.
    + apply wf_tabulate.
    + exact Hwf.
    + rewrite shape_tabulate. symmetry. exact Hs.
    + intros idx Hb. rewrite shape_tabulate in Hb. inv_bounds Hb. lia.
Qed.

Lemma shift_right_empty_chunk_witness :
  let pre := [NdArray [1; 2] [1; 2]%Z] in
  let x := NdArray [1; 0] (@nil Z) in
  Forall (is_chunk 1 []) pre /\ shape x = [1; 0] /\ wf x
  /\ ShiftRight (Chunked (pre ++ x :: [NdArray [1; 1] [3]%Z])) = Raise IndexError
  /\ ShiftRight (Single x) = Ok (Single x).
Proof.
  assert (H : Forall (is_chunk 1 []) [NdArray [1; 2] [1; 2]%Z]).
  { repeat constructor. exists 2. split; [lia|reflexivity]. }
  split; [exact H|]. split; [reflexivity|]. split; [reflexivity|].
  apply (shift_right_empty_chunk [NdArray [1; 2] [1; 2]%Z] [NdArray [1; 1] [3]%Z]
           (NdArray [1; 0] (@nil Z)) 1 []);
    [exact H|reflexivity|reflexivity].
Defined.

(** X10.  [ShiftRight] raises IndexError on a non-chunked input with fewer
    than two axes, on an empty list of chunks, and on a list whose first
    chunk has fewer than two axes. *)
Theorem shift_right_index_errors {A : Type} {dt : Dtype A} :
  (forall x : ndarray A, length (shape x) < 2 -> ShiftRight (Single x) = Raise IndexError)
  /\ ShiftRight (Chunked (@nil (ndarray A))) = Raise IndexError
  /\ (forall (x : ndarray A) xs, length (shape x) < 2 ->
        ShiftRight (Chunked (x :: xs)) = Raise IndexError).
Proof.
  split; [|split].
  - intros x Hx. unfold ShiftRight, list_setitem. rewrite repeat_length.
    destruct (Nat.ltb_spec 1 (length (shape x))); [lia|reflexivity].
  - reflexivity.
  - intros x xs Hx. unfold ShiftRight. rewrite tuple_getitem_0. cbn [rbind].
    unfold getitem_int1. destruct (shape x) as [|a [|b r]]; try reflexivity.
    cbn [length] in Hx. lia.
Qed.


(** * PositionalEncoding: chunks and whole sequences, the table's end, the table built by the layer *)

Section PositionalEncodingMore.
Context {A : Type} {dt : Dtype A}.
Local Open Scope result_scope.

Lemma positional_encoding_single_closed (x params : ndarray A) (B L D M : nat) :
  shape x = [B; L; D] -> shape params = [1; M; D] -> L <= M ->
  PositionalEncoding (Single x) params
  = Ok (Single (tabulate [B; L; D] (encoded x params 0))).
Proof.
  intros Hx Hp Hfit. unfold PositionalEncoding, np_shape_at. rewrite Hx.
  rewrite tuple_getitem_1. cbn [rbind].
  unfold getitem_slice1. rewrite Hp. cbn [length Nat.ltb Nat.leb].
  unfold slice_bounds. rewrite clamp_slice_nat. rewrite Nat.sub_0_r. cbn [rbind].
  replace (Nat.min L M) with L by lia.
  rewrite (np_add_slice_closed x params B L D M 0 Hx Hp) by lia. reflexivity.
Qed.

Lemma positional_encoding_chunked_closed (params : ndarray A) (xs : list (ndarray A))
    (M D : nat) :
  shape params = [1; M; D] ->
  Forall (fun x => exists B L, shape x = [B; L; D]) xs ->
  total_dim1 xs <= M ->
  PositionalEncoding (Chunked xs) params
  = Ok (Chunked (map (fun kx => tabulate (shape (snd kx))
                                  (encoded (snd kx) params (chunk_offset xs (fst kx))))
                   (combine (seq 0 (length xs)) xs))).
Proof.
  intros Hp Hall Hfit. unfold PositionalEncoding.
  change 0 with (total_dim1 (@nil (ndarray A))) at 1.
  rewrite (positional_encoding_loop_closed params xs [] []). cbn [app length].
  pose proof (encode_by_offsets_fit params xs M D Hp Hall Hfit xs [] eq_refl) as F.
  cbn [length] in F. rewrite F. reflexivity.
Qed.

Lemma is_chunk_shape3 (xs : list (ndarray A)) (B D : nat) :
  Forall (is_chunk B [D]) xs ->
  Forall (fun x => exists B L, shape x = [B; L; D]) xs.
Proof.
  intros H. eapply Forall_impl; [|exact H].
  intros x (L & _ & Hs). eauto.
Qed.

Lemma resplit_encoded (params : ndarray A) (xs : list (ndarray A)) (B D : nat) :
  Forall (is_chunk B [D]) xs ->
  forall suf pre,
    xs = pre ++ suf ->
    resplit
      (tabulate [B; total_dim1 xs; D]
         (encoded
            (tabulate [B; total_dim1 xs; D]
               (fun idx => match idx with
                           | b :: i :: r => concat_get zero xs b i r
                           | _ => zero
                           end))
            params 0))
      (map dim1 suf) (total_dim1 pre)
    = Ok (map (fun kx => tabulate (shape (snd kx))
                           (encoded (snd kx) params (chunk_offset xs (fst kx))))
            (combine (seq (length pre) (length suf)) suf)).
Proof.
  intros Hall. induction suf as [|x suf IH]; intros pre Hxs.
  - reflexivity.
  - cbn [map resplit length seq combine fst snd].
    assert (Hx : is_chunk B [D] x).
    { rewrite Forall_forall in Hall. apply Hall. rewrite Hxs.
      apply in_or_app. right. left. reflexivity. }
    apply dim1_is_chunk in Hx. destruct Hx as [HL Hs].
    assert (Htot : total_dim1 xs = total_dim1 pre + dim1 x + total_dim1 suf).
    { rewrite Hxs, total_dim1_app. cbn [total_dim1 fold_right].
      fold (total_dim1 suf). lia. }
    assert (Hoff : chunk_offset xs (length pre) = total_dim1 pre).
    { rewrite Hxs. apply chunk_offset_app. }
    unfold getitem_slice1 at 1. rewrite shape_tabulate.
    cbn [length Nat.ltb Nat.leb]. unfold slice_bounds.
    rewrite clamp_slice_nat, clamp_slice_nat_add.
    replace (Nat.min (total_dim1 pre) (total_dim1 xs)) with (total_dim1 pre) by lia.
    replace (Nat.min (total_dim1 pre + dim1 x) (total_dim1 xs))
      with (total_dim1 pre + dim1 x) by lia.
    replace (total_dim1 pre + dim1 x - total_dim1 pre) with (dim1 x) by lia.
    cbn [rbind].
    assert (Hstep : total_dim1 (pre ++ [x]) = total_dim1 pre + dim1 x).
    { rewrite total_dim1_app. cbn [total_dim1 fold_right]. lia. }
    rewrite <- Hstep.
    specialize (IH (pre ++ [x])). rewrite length_app in IH. cbn [length] in IH.
    rewrite Nat.add_1_r in IH. rewrite IH.
    2:{ rewrite <- app_assoc. exact Hxs. }
    cbn [rbind]. do 2 f_equal. rewrite Hs, Hoff.
    apply tabulate_ext. intros idx Hb. inv_bounds Hb.
    rewrite getd_tabulate by solve_bounds.
    cbn [encoded Nat.add].
    unfold get0 at 1. rewrite getd_tabulate by solve_bounds.
    rewrite Hxs at 1. rewrite concat_get_app by lia. reflexivity.
Qed.

Lemma loop_prefix_fit (params : ndarray A) (M D : nat) (pre : list (ndarray A)) :
  shape params = [1; M; D] ->
  Forall (fun x => exists B L, shape x = [B; L; D]) pre ->
  forall off acc l,
    off + total_dim1 pre <= M ->
    exists rs,
      length rs = length pre
      /\ positional_encoding_loop params (pre ++ l) off acc
         = positional_encoding_loop params l (off + total_dim1 pre) (acc ++ rs).
Proof.
  intros Hp. induction 1 as [|x pre (B & L & Hx) Hpre IH]; intros off acc l Hfit.
  - exists []. split; [reflexivity|]. cbn [app total_dim1 fold_right].
    rewrite app_nil_r, Nat.add_0_r. reflexivity.
  - assert (Hd : dim1 x = L) by (unfold dim1; rewrite Hx; reflexivity).
    cbn [total_dim1 fold_right] in Hfit. fold (total_dim1 pre) in Hfit.
    cbn [app positional_encoding_loop].
    pose proof (add_slice_fit x params B L D M off Hx Hp) as F.
    unfold add_slice in F. unfold np_shape_at in *. rewrite Hx in *.
    rewrite tuple_getitem_1 in *. cbn [rbind] in *.
    destruct (getitem_slice1 _ _ _ _ _) as [table|e].
    2:{ specialize (F ltac:(lia)). discriminate. }
    cbn [rbind] in *. rewrite F by lia. cbn [rbind].
    destruct (IH (off + L) (acc ++ [tabulate [B; L; D] (encoded x params off)]) l)
      as (rs & Hlen & E); [lia|].
    exists (tabulate [B; L; D] (encoded x params off) :: rs).
    split; [cbn [length]; lia|].
    rewrite E. cbn [total_dim1 fold_right]. fold (total_dim1 pre).
    rewrite Hd, <- app_assoc, Nat.add_assoc. reflexivity.
Qed.

End PositionalEncodingMore.

(** X11.  Chunking is invisible to the positional encoding: for chunks of
    shapes [(B, L_k, D)] with every [L_k >= 1] that fit in the table
    together, encoding the chunks gives what is obtained by concatenating
    them along the time axis, encoding the whole sequence as a non-chunked
    input and cutting the result at the chunk boundaries. *)
Theorem positional_encoding_chunks_as_whole {A : Type} {dt : Dtype A}
    (params : ndarray A)
    (xs : list (ndarray A)) (B M D : nat) :
  shape params = [1; M; D] ->
  xs <> [] ->
  Forall (is_chunk B [D]) xs ->
  total_dim1 xs <= M ->
  exists whole y ys,
    np_concatenate1 zero xs = Ok whole
    /\ PositionalEncoding (Single whole) params = Ok (Single y)
    /\ PositionalEncoding (Chunked xs) params = Ok (Chunked ys)
    /\ resplit y (map dim1 xs) 0 = Ok ys.
Proof.
  intros Hp Hne Hall Hfit.
  rewrite (concatenate_closed xs B [D] Hne Hall).
  eexists. eexists. eexists. split; [reflexivity|].
  rewrite (positional_encoding_single_closed _ params B (total_dim1 xs) D M)
    by (reflexivity || assumption).
  split; [reflexivity|].
  rewrite (positional_encoding_chunked_closed params xs M D Hp
             (is_chunk_shape3 xs B D Hall) Hfit).
  split; [reflexivity|].
  apply (resplit_encoded params xs B D Hall xs [] eq_refl).
Qed.

Lemma positional_encoding_chunks_as_whole_witness :
  let params := NdArray [1; 3; 1] [10; 20; 30]%Z in
  let xs := [NdArray [1; 2; 1] [1; 2]%Z; NdArray [1; 1; 1] [3]%Z] in
  exists whole y ys,
    np_concatenate1 zero xs = Ok whole
    /\ PositionalEncoding (Single whole) params = Ok (Single y)
    /\ PositionalEncoding (Chunked xs) params = Ok (Chunked ys)
    /\ resplit y (map dim1 xs) 0 = Ok ys.
Proof.
  intros params xs.
  apply (positional_encoding_chunks_as_whole params xs 1 3 1).
  - reflexivity.
  - discriminate.
  - repeat constructor.
    + exists 2. split; [lia|reflexivity].
    + exists 1. split; [lia|reflexivity].
  - cbv. lia.
Defined.

(** X12.  When the chunks so far have used up the table exactly, the next
    chunk gets the empty slice of the table: a chunk of one time step is
    broadcast against it and comes back with no time step at all, without an
    error, and a chunk of two or more time steps raises ValueError. *)
Theorem positional_encoding_table_exhausted {A : Type} {dt : Dtype A}
    (params x : ndarray A)
    (pre : list (ndarray A)) (B L M D : nat) :
  shape params = [1; M; D] ->
  Forall (fun c => exists B' L', shape c = [B'; L'; D]) pre ->
  total_dim1 pre = M ->
  shape x = [B; L; D] ->
  (L = 1 ->
     exists ys y,
       PositionalEncoding (Chunked (pre ++ [x])) params = Ok (Chunked (ys ++ [y]))
       /\ length ys = length pre
       /\ shape y = [B; 0; D])
  /\ (2 <= L -> PositionalEncoding (Chunked (pre ++ [x])) params = Raise ValueError).
Proof.
  intros Hp Hpre Htot Hx. unfold PositionalEncoding.
  destruct (loop_prefix_fit params M D pre Hp Hpre 0 [] [x]) as (rs & Hlen & E);
    [lia|].
  rewrite E. cbn [app Nat.add positional_encoding_loop].
  unfold np_shape_at. rewrite Hx, tuple_getitem_1. cbn [rbind].
  rewrite (slice_table params M D (total_dim1 pre) L Hp). cbn [rbind].
  replace (Nat.min (total_dim1 pre + L) M - Nat.min (total_dim1 pre) M) with 0 by lia.
  unfold np_add. rewrite Hx, shape_tabulate, broadcast_shapes_table.
  split.
  - intros ->. cbn [Nat.eqb]. cbn [rbind].
    eexists. eexists. split; [reflexivity|]. split; [exact Hlen|reflexivity].
  - intros HL. destruct (Nat.eqb_spec L 0); [lia|].
    destruct (Nat.eqb_spec L 1); [lia|]. reflexivity.
Qed.

Lemma positional_encoding_table_exhausted_witness :
  let params := NdArray [1; 2; 1] [10; 20]%Z in
  let pre := [NdArray [1; 2; 1] [1; 2]%Z] in
  let x := NdArray [1; 1; 1] [3]%Z in
  (1 = 1 ->
     exists ys y,
       PositionalEncoding (Chunked (pre ++ [x])) params = Ok (Chunked (ys ++ [y]))
       /\ length ys = length pre
       /\ shape y = [1; 0; 1])
  /\ (2 <= 1 -> PositionalEncoding (Chunked (pre ++ [x])) params = Raise ValueError).
Proof.
  intros params pre x.
  apply (positional_encoding_table_exhausted params x pre 1 1 2 1).
  - reflexivity.
  - repeat constructor. exists 1, 2. reflexivity.
  - reflexivity.
  - reflexivity.
Defined.

(** X13.  The layer applied to the table its initialiser builds: for an
    input of shape [(B, L, D)] with [D] even and [L <= max_len], element
    [(b, p, 2 i)] of the result is the input's element plus the float32 sine,
    and element [(b, p, 2 i + 1)] the input's element plus the float32
    cosine, of [p * exp (2 i * -(log 10000 / D))]. *)
Theorem positional_encoding_of_new_params {A : Type} {dt : Dtype A} {ops : TableOps A}
    (s : input_shape) (x : ndarray A) (B L D max_len : nat) :
  feature_depth_of s = Ok D ->
  Nat.even D = true ->
  shape x = [B; L; D] ->
  L <= max_len ->
  exists t y : ndarray A,
    positional_encoding_new_params s max_len = Ok t
    /\ PositionalEncoding (Single x) t = Ok (Single y)
    /\ shape y = shape x
    /\ (forall b p i a, 2 * i + 1 < D -> get x [b; p; 2 * i] = Some a ->
          get y [b; p; 2 * i]
          = Some (add a (to_float32 (table_sin (table_angle D p i)))))
    /\ (forall b p i a, 2 * i + 1 < D -> get x [b; p; 2 * i + 1] = Some a ->
          get y [b; p; 2 * i + 1]
          = Some (add a (to_float32 (table_cos (table_angle D p i))))).
Proof.
  intros Hs Hev Hx Hfit.
  rewrite (even_depth_table_closed s max_len D Hs Hev).
  eexists. eexists. split; [reflexivity|].
  rewrite (positional_encoding_single_closed x
             (NdArray [1; max_len; D] (data (tabulate [max_len; D] (table_entry D))))
             B L D max_len Hx eq_refl Hfit).
  split; [reflexivity|].
  split; [rewrite Hx; reflexivity|].
  assert (Hin : forall b p j a, get x [b; p; j] = Some a ->
                  in_bounds [B; L; D] [b; p; j] = true /\ p < L).
  { intros b p j a Ha. unfold get in Ha. rewrite Hx in Ha.
    destruct (in_bounds [B; L; D] [b; p; j]) eqn:E; [|discriminate].
    split; [reflexivity|]. cbn [in_bounds] in E.
    destruct (Nat.ltb_spec p L); [assumption|].
    rewrite andb_false_r in E. discriminate. }
  split; intros b p i a Hi Ha; destruct (Hin _ _ _ _ Ha) as [Hb Hp];
    rewrite get_tabulate by exact Hb; cbn [encoded Nat.add];
    unfold get0, getd; rewrite Ha, table_entry_get by lia; cbn [table_entry].
  - rewrite even_double, half_double. reflexivity.
  - rewrite even_double_succ, half_double_succ. reflexivity.
Qed.

Lemma positional_encoding_of_new_params_witness :
  let x := NdArray [1; 2; 2] [SInt 1; SInt 2; SInt 3; SInt 4] in
  exists t y : ndarray sym,
    positional_encoding_new_params (OneShape [1; 2; 2]) 3 = Ok t
    /\ PositionalEncoding (Single x) t = Ok (Single y)
    /\ shape y = shape x
    /\ (forall b p i a, 2 * i + 1 < 2 -> get x [b; p; 2 * i] = Some a ->
          get y [b; p; 2 * i]
          = Some (add a (to_float32 (table_sin (table_angle 2 p i)))))
    /\ (forall b p i a, 2 * i + 1 < 2 -> get x [b; p; 2 * i + 1] = Some a ->
          get y [b; p; 2 * i + 1]
          = Some (add a (to_float32 (table_cos (table_angle 2 p i))))).
Proof.
  apply (positional_encoding_of_new_params (OneShape [1; 2; 2])
           (NdArray [1; 2; 2] [SInt 1; SInt 2; SInt 3; SInt 4]) 1 2 2 3);
    [reflexivity|reflexivity|reflexivity|lia].
Defined.

(** * SplitHeads and JoinHeads: where the features go, and the other round trip *)

Lemma head_depth_of_product (Hn d : nat) :
  1 <= Hn -> (Z.of_nat (Hn * d) / Z.of_nat Hn)%Z = Z.of_nat d.
Proof.
  intros H. rewrite Nat2Z.inj_mul, Z.mul_comm. apply Z.div_mul. lia.
Qed.

Section HeadsMore.
Context {A : Type} {dt : Dtype A}.

Lemma head_setup_product (q : ndarray A) (B S Hn d : nat) :
  shape q = [B; S; Hn * d] -> 1 <= Hn ->
  head_setup q (Z.of_nat Hn) = Ok (Heads B (Z.of_nat Hn) (Z.of_nat d)).
Proof.
  intros Hs HH. unfold head_setup, np_shape_at. rewrite Hs.
  change (tuple_getitem [B; S; Hn * d] (-1)) with (Ok (A:=nat) (Hn * d)).
  rewrite tuple_getitem_0. cbn [rbind].
  destruct (Z.eqb_spec (Z.of_nat Hn) 0); [lia|].
  rewrite Nat2Z.inj_mul, Z.mul_comm, Z.mod_mul by lia.
  change (negb (0 =? 0)%Z) with false. cbv iota.
  rewrite Z.div_mul by lia. reflexivity.
Qed.

Lemma split_heads_closed (x : ndarray A) (B S Hn d : nat) :
  shape x = [B; S; Hn * d] -> 1 <= B -> 1 <= Hn * d ->
  SplitHeads (Heads B (Z.of_nat Hn) (Z.of_nat d)) x
  = Ok (tabulate [B; Hn; S; d]
          (fun idx => match idx with
                      | [a; b; c; e] => get0 (NdArray [B; S; Hn; d] (data x)) [a; c; b; e]
                      | _ => zero
                      end)).
Proof.
  intros Hs HB HD. unfold SplitHeads. cbn [nbatch num_heads head_depth].
  rewrite (reshape_split x B S Hn d Hs HB HD). cbn [rbind].
  apply (transpose_0213 _ B S Hn d). reflexivity.
Qed.

Lemma join_heads_closed (y : ndarray A) (B S Hn d : nat) :
  shape y = [B; Hn; S; d] -> 1 <= B -> 1 <= Hn * d ->
  JoinHeads (Heads B (Z.of_nat Hn) (Z.of_nat d)) y
  = Ok (NdArray [B; S; Hn * d]
          (data (tabulate [B; S; Hn; d]
                   (fun idx => match idx with
                               | [a; b; c; e] => get0 y [a; c; b; e]
                               | _ => zero
                               end)))).
Proof.
  intros Hs HB HD. unfold JoinHeads. cbn [nbatch num_heads head_depth].
  rewrite (transpose_0213 y B Hn S d Hs). cbn [rbind].
  apply (reshape_join _ B S Hn d); [reflexivity|assumption|assumption].
Qed.

End HeadsMore.

(** X14.  [SplitHeads] gives head [k] the features [k * head_depth] to
    [(k + 1) * head_depth - 1] of every position: for [x] of shape
    [(batch, seq, num_heads * head_depth)], element [(b, k, s, e)] of the
    result is element [(b, s, k * head_depth + e)] of [x]. *)
Theorem split_heads_entries {A : Type} {dt : Dtype A}
    (x : ndarray A) (B S Hn d : nat) :
  wf x -> shape x = [B; S; Hn * d] -> 1 <= B -> 1 <= Hn * d ->
  exists h y,
    head_setup x (Z.of_nat Hn) = Ok h
    /\ SplitHeads h x = Ok y
    /\ forall b k s e, k < Hn -> e < d ->
         get y [b; k; s; e] = get x [b; s; k * d + e].
Proof.
  intros Hwf Hs HB HD.
  assert (HH : 1 <= Hn) by nia.
  rewrite (head_setup_product x B S Hn d Hs HH).
  eexists. eexists. split; [reflexivity|].
  split; [apply (split_heads_closed x B S Hn d Hs HB HD)|].
  intros b k s e Hk He.
  assert (Hke : k * d + e < Hn * d) by nia.
  destruct (Nat.ltb_spec b B) as [Hb|Hb], (Nat.ltb_spec s S) as [Hs'|Hs'].
  - rewrite get_tabulate by solve_bounds.
    destruct (get_in_bounds x [b; s; k * d + e] Hwf) as [a Ha].
    { rewrite Hs. solve_bounds. }
    rewrite Ha. f_equal. unfold get0, getd.
    replace (get (NdArray [B; S; Hn; d] (data x)) [b; s; k; e]) with (Some a);
      [reflexivity|].
    rewrite <- Ha. unfold get. cbn [shape data]. rewrite Hs.
    cbn [in_bounds ravel numel fold_right]. bounds_true. cbn [andb].
    f_equal. nia.
  - rewrite !get_out_of_bounds; [reflexivity| |].
    + rewrite Hs. cbn [in_bounds].
      destruct (Nat.ltb_spec s S); [lia|]. rewrite !andb_false_r. reflexivity.
    + rewrite shape_tabulate. cbn [in_bounds].
      destruct (Nat.ltb_spec s S); [lia|]. rewrite !andb_false_r. reflexivity.
  - rewrite !get_out_of_bounds; [reflexivity| |].
    + rewrite Hs. cbn [in_bounds].
      destruct (Nat.ltb_spec b B); [lia|]. reflexivity.
    + rewrite shape_tabulate. cbn [in_bounds].
      destruct (Nat.ltb_spec b B); [lia|]. reflexivity.
  - rewrite !get_out_of_bounds; [reflexivity| |].
    + rewrite Hs. cbn [in_bounds].
      destruct (Nat.ltb_spec b B); [lia|]. reflexivity.
    + rewrite shape_tabulate. cbn [in_bounds].
      destruct (Nat.ltb_spec b B); [lia|]. reflexivity.
Qed.

Lemma split_heads_entries_witness :
  let x := NdArray [1; 2; 4] [1; 2; 3; 4; 5; 6; 7; 8]%Z in
  exists h y,
    head_setup x (Z.of_nat 2) = Ok h
    /\ SplitHeads h x = Ok y
    /\ forall b k s e, k < 2 -> e < 2 ->
         get y [b; k; s; e] = get x [b; s; k * 2 + e].
Proof.
  intros x.
  apply (split_heads_entries x 1 2 2 2); [reflexivity|reflexivity|lia|lia].
Defined.

(** X15.  The round trip in the order the layer uses it on the attention
    output: for [y] of shape [(batch, num_heads, seq, head_depth)] with
    [batch >= 1] and [num_heads * head_depth >= 1], [JoinHeads] returns an
    array of shape [(batch, seq, num_heads * head_depth)] from which
    [SplitHeads] gives [y] back. *)
Theorem split_heads_join_heads {A : Type} {dt : Dtype A}
    (y : ndarray A) (B S Hn d : nat) :
  wf y -> shape y = [B; Hn; S; d] -> 1 <= B -> 1 <= Hn * d ->
  exists x,
    JoinHeads (Heads B (Z.of_nat Hn) (Z.of_nat d)) y = Ok x
    /\ shape x = [B; S; Hn * d]
    /\ wf x
    /\ SplitHeads (Heads B (Z.of_nat Hn) (Z.of_nat d)) x = Ok y.
Proof.
  intros Hwf Hs HB HD.
  rewrite (join_heads_closed y B S Hn d Hs HB HD).
  eexists. split; [reflexivity|]. split; [reflexivity|]. split.
  { unfold wf. cbn [shape data tabulate]. rewrite length_map, length_indices.
    cbn [numel fold_right]. lia. }
  rewrite (split_heads_closed _ B S Hn d) by (try reflexivity; assumption).
  f_equal. cbn [data].
  change (NdArray [B; S; Hn; d] (data (tabulate [B; S; Hn; d] ?f)))
    with (tabulate [B; S; Hn; d] f).
  etransitivity; [|apply (tabulate_getd zero y Hwf)]. rewrite Hs.
  apply tabulate_ext. intros idx Hb. inv_bounds Hb.
  unfold get0 at 1. rewrite getd_tabulate by solve_bounds.
  reflexivity.
Qed.

Lemma split_heads_join_heads_witness :
  let y := NdArray [1; 2; 2; 2] [1; 2; 3; 4; 5; 6; 7; 8]%Z in
  exists x,
    JoinHeads (Heads 1 (Z.of_nat 2) (Z.of_nat 2)) y = Ok x
    /\ shape x = [1; 2; 2 * 2]
    /\ wf x
    /\ SplitHeads (Heads 1 (Z.of_nat 2) (Z.of_nat 2)) x = Ok y.
Proof.
  intros y.
  apply (split_heads_join_heads y 1 2 2 2); [reflexivity|reflexivity|lia|lia].
Defined.

(** * PureMultiHeadedAttention and the sampling of DotProductAttention *)

Lemma reshape_negative_heads {A : Type} (q : ndarray A) (B D : nat) (nh : Z) :
  (nh < 0)%Z ->
  np_reshape q [Z.of_nat B; (-1)%Z; nh; (Z.of_nat D / nh)%Z] = Raise ValueError.
Proof.
  intros Hneg. unfold np_reshape. cbn [existsb].
  rewrite of_nat_ltb_m1. change (-1 <? -1)%Z with false. cbn [orb].
  destruct (Z.ltb_spec nh (-1)); [reflexivity|].
  assert (nh = (-1)%Z) by lia. subst nh.
  assert (E : (Z.of_nat D / -1 = - Z.of_nat D)%Z).
  { symmetry. apply (Z.div_unique _ _ _ 0); lia. }
  rewrite E. cbn [orb].
  destruct (Z.ltb_spec (- Z.of_nat D) (-1)); [reflexivity|].
  cbn [filter]. rewrite of_nat_eqb_m1. change (-1 =? -1)%Z with true. cbv iota.
  destruct (- Z.of_nat D =? -1)%Z; reflexivity.
Qed.

Section AttentionMore.
Context {A K C : Type} {dt : Dtype A} {dc : Dtype C} {be : Backend A K}.

Lemma attention_weights_no_sampling (q k : ndarray A) (mask : option (ndarray C))
    (tr tr' : list event) (r : result (ndarray A)) :
  attention_weights q k mask tr = (tr', r) ->
  exists evs, tr' = tr ++ evs /\ ~ In EvBernoulli evs.
Proof.
  unfold attention_weights, tbind, lift, call, tret.
  destruct (np_shape_at q (-1)) as [depth|e];
    [|intros H; injection H as <- _; eexists; split; [reflexivity|
       cbn; intuition discriminate]].
  destruct (np_swapaxes_last2 k) as [kt|e];
    [|intros H; injection H as <- _; eexists; split; [rewrite <- !app_assoc; reflexivity|
       cbn; intuition discriminate]].
  destruct (np_matmul q kt) as [qk|e];
    [|intros H; injection H as <- _; eexists; split; [rewrite <- !app_assoc; reflexivity|
       cbn; intuition discriminate]].
  destruct mask as [m|].
  - destruct (np_where m _ _) as [dots|e];
      [|intros H; injection H as <- _; eexists; split; [rewrite <- !app_assoc; reflexivity|
         cbn; intuition discriminate]].
    destruct (logsumexp dots) as [lse|e];
      [|intros H; injection H as <- _; eexists; split; [rewrite <- !app_assoc; reflexivity|
         cbn; intuition discriminate]].
    destruct (np_subtract dots lse) as [diff|e];
      intros H; injection H as <- _; eexists;
      (split; [rewrite <- !app_assoc; reflexivity|cbn; intuition discriminate]).
  - destruct (logsumexp _) as [lse|e];
      [|intros H; injection H as <- _; eexists; split; [rewrite <- !app_assoc; reflexivity|
         cbn; intuition discriminate]].
    destruct (np_subtract _ lse) as [diff|e];
      intros H; injection H as <- _; eexists;
      (split; [rewrite <- !app_assoc; reflexivity|cbn; intuition discriminate]).
Qed.

Lemma apply_dropout_trace (dots : ndarray A) (dropout : option float) (mode : string)
    (rng : option K) (tr tr' : list event) (w : ndarray A) :
  apply_dropout dots dropout mode rng tr = (tr', Ok w) ->
  tr' = tr ++ dropout_events dropout mode.
Proof.
  unfold apply_dropout, dropout_events, tbind, call, tret.
  destruct dropout as [d|].
  - destruct (PrimFloat.ltb 0 d && String.eqb mode "train").
    + destruct (random_bernoulli _ _ _) as [keep|e]; [|discriminate].
      destruct (np_where keep _ _) as [w'|e]; [|discriminate].
      intros H. injection H as <- _. rewrite <- !app_assoc. reflexivity.
    + intros H. injection H as <- _. rewrite app_nil_r. reflexivity.
  - intros H. injection H as <- _. rewrite app_nil_r. reflexivity.
Qed.

Lemma attention_returns (q k v : ndarray A) (mask : option (ndarray C))
    (dropout : option float) (mode : string) (rng : option K)
    (tr tr' : list event) (out : ndarray A) :
  DotProductAttention q k v mask dropout mode rng tr = (tr', Ok out) ->
  (exists d, dropout = Some d /\ PrimFloat.leb 1 d = false)
  /\ tr' = tr ++ weights_events mask ++ dropout_events dropout mode ++ [EvMatmul].
Proof.
  unfold DotProductAttention, tbind, lift.
  destruct (attention_weights q k mask tr) as [tr1 [w|e]] eqn:Ew; [|discriminate].
  apply attention_weights_trace in Ew. subst tr1.
  destruct dropout as [d|]; [|discriminate]. cbn [py_ge].
  destruct (PrimFloat.leb 1 d) eqn:Hd; [discriminate|].
  destruct (apply_dropout w (Some d) mode rng _) as [tr2 [w'|e]] eqn:Ed; [|discriminate].
  apply apply_dropout_trace in Ed. subst tr2.
  unfold call. intros H. injection H as <- _.
  split; [eauto|]. rewrite <- !app_assoc. reflexivity.
Qed.

(** The traced head bookkeeping is [head_setup] with its call recorded. *)
Lemma traced_head_setup_ok (q : ndarray A) (nh : Z) (tr tr' : list event) (h : heads) :
  traced_head_setup q nh tr = (tr', Ok h) ->
  head_setup q nh = Ok h
  /\ tr' = tr ++ [EvShape]
  /\ nh <> 0%Z
  /\ exists D, np_shape_at q (-1) = Ok D /\ (Z.of_nat D mod nh = 0)%Z.
Proof.
  unfold traced_head_setup, head_setup, tbind, lift, call, traise, tret.
  destruct (np_shape_at q (-1)) as [D|e]; [|discriminate]. cbn [rbind].
  destruct (Z.eqb_spec nh 0); [discriminate|].
  destruct (Z.eqb_spec (Z.of_nat D mod nh) 0); [|discriminate].
  cbn [negb]. destruct (np_shape_at q 0) as [B|e']; [|discriminate].
  cbn [rbind]. intros H. injection H as <- <-.
  split; [reflexivity|]. split; [reflexivity|]. split; [assumption|]. eauto.
Qed.

Lemma traced_split_heads_ok (h : heads) (x y : ndarray A) (tr tr' : list event) :
  traced_split_heads h x tr = (tr', Ok y) ->
  SplitHeads h x = Ok y /\ tr' = tr ++ split_events.
Proof.
  unfold traced_split_heads, SplitHeads, split_events, tbind, call.
  destruct (np_reshape x _) as [z|e]; [|discriminate]. cbn [rbind].
  intros H. injection H as <- ->. rewrite <- app_assoc. split; reflexivity.
Qed.

Lemma traced_join_heads_ok (h : heads) (x y : ndarray A) (tr tr' : list event) :
  traced_join_heads h x tr = (tr', Ok y) ->
  JoinHeads h x = Ok y /\ tr' = tr ++ join_events.
Proof.
  unfold traced_join_heads, JoinHeads, join_events, tbind, call.
  destruct (np_transpose zero x _) as [z|e]; [|discriminate]. cbn [rbind].
  intros H. injection H as <- ->. rewrite <- app_assoc. split; reflexivity.
Qed.

End AttentionMore.

(** X16.  A head count of zero, or one that does not divide the feature
    depth, stops [PureMultiHeadedAttention] before any backend call, whatever
    the dropout rate: [num_heads = 0] raises ZeroDivisionError and a head
    count that does not divide the feature depth raises AssertionError, both
    at the assertion of line 178.  A negative head count that divides the
    feature depth passes the assertion; [np.shape(q)] is called, and the
    first [np.reshape] of [SplitHeads] raises ValueError. *)
Theorem multi_head_bad_head_count
    {A K C : Type} {dt : Dtype A} {dc : Dtype C} {be : Backend A K}
    (q k v : ndarray A) (mask : option (ndarray C))
    (nh : Z) (dropout : option float) (mode : string) (rng : option K)
    (tr : list event) (D : nat) :
  np_shape_at q (-1) = Ok D ->
  (nh = 0%Z ->
     PureMultiHeadedAttention q k v mask nh dropout mode rng tr
     = (tr, Raise ZeroDivisionError))
  /\ (nh <> 0%Z -> (Z.of_nat D mod nh <> 0)%Z ->
        PureMultiHeadedAttention q k v mask nh dropout mode rng tr
        = (tr, Raise AssertionError))
  /\ ((nh < 0)%Z -> (Z.of_nat D mod nh = 0)%Z ->
        PureMultiHeadedAttention q k v mask nh dropout mode rng tr
        = (tr ++ [EvShape; EvReshape], Raise ValueError)).
Proof.
  intros HD. unfold PureMultiHeadedAttention, traced_head_setup, tbind, lift, traise.
  rewrite HD. split; [|split].
  - intros ->. reflexivity.
  - intros Hnh Hmod. destruct (Z.eqb_spec nh 0); [contradiction|].
    destruct (Z.eqb_spec (Z.of_nat D mod nh) 0); [contradiction|]. reflexivity.
  - intros Hneg Hmod. destruct (Z.eqb_spec nh 0); [lia|].
    rewrite Hmod. change (negb (0 =? 0)%Z) with false. cbv iota.
    unfold call, tret.
    destruct (np_shape_at q 0) as [B|e] eqn:EB.
    + unfold traced_split_heads, tbind, call. cbn [nbatch num_heads head_depth].
      rewrite (reshape_negative_heads q B D nh Hneg).
      rewrite <- app_assoc. reflexivity.
    + exfalso. unfold np_shape_at in *. destruct (shape q) as [|a l].
      * discriminate.
      * rewrite tuple_getitem_0 in EB. discriminate.
Qed.

Lemma multi_head_bad_head_count_witness :
  PureMultiHeadedAttention (C:=bool) one_token one_token one_token None 0
    (Some 1.5%float) "train" (Some 3) []
  = ([], Raise ZeroDivisionError)
  /\ PureMultiHeadedAttention (C:=bool) one_token one_token one_token None 3
       (Some 1.5%float) "train" (Some 3) []
     = ([], Raise AssertionError)
  /\ PureMultiHeadedAttention (C:=bool) one_token one_token one_token None (-2)
       (Some 1.5%float) "train" (Some 3) []
     = ([] ++ [EvShape; EvReshape], Raise ValueError).
Proof.
  split; [|split].
  - apply (proj1 (multi_head_bad_head_count (C:=bool) one_token one_token one_token
                    None 0 (Some 1.5%float) "train" (Some 3) [] 2 eq_refl)).
    reflexivity.
  - apply (proj1 (proj2 (multi_head_bad_head_count (C:=bool) one_token one_token
                           one_token None 3 (Some 1.5%float) "train" (Some 3) [] 2
                           eq_refl))).
    + discriminate.
    + discriminate.
  - apply (proj2 (proj2 (multi_head_bad_head_count (C:=bool) one_token one_token
                           one_token None (-2) (Some 1.5%float) "train" (Some 3) [] 2
                           eq_refl))).
    + reflexivity.
    + reflexivity.
Defined.

(** X17.  When [PureMultiHeadedAttention] returns, the mask it returns is
    the mask it was given, the head count is not zero and divides the feature
    depth, the dropout rate is a float for which [dropout >= 1.0] is false,
    and the backend calls made are, in order: [np.shape(q)]; the reshape and
    the transpose of [SplitHeads] for [q], for [k] and for [v]; the calls of
    [DotProductAttention], which are those of the scores, masking and
    softmax, then those of the dropout step (only in mode ['train'] with a
    positive rate), then the weighted sum; the transpose and the reshape of
    [JoinHeads]. *)
Theorem multi_head_returns
    {A K C : Type} {dt : Dtype A} {dc : Dtype C} {be : Backend A K}
    (q k v : ndarray A) (mask : option (ndarray C))
    (nh : Z) (dropout : option float) (mode : string) (rng : option K)
    (tr tr' : list event) (res : ndarray A) (m : option (ndarray C)) :
  PureMultiHeadedAttention q k v mask nh dropout mode rng tr = (tr', Ok (res, m)) ->
  m = mask
  /\ nh <> 0%Z
  /\ (exists D, np_shape_at q (-1) = Ok D /\ (Z.of_nat D mod nh = 0)%Z)
  /\ (exists d, dropout = Some d /\ PrimFloat.leb 1 d = false)
  /\ tr' = tr ++ [EvShape] ++ split_events ++ split_events ++ split_events
             ++ weights_events mask ++ dropout_events dropout mode ++ [EvMatmul]
             ++ join_events.
Proof.
  unfold PureMultiHeadedAttention, tbind, tret.
  destruct (traced_head_setup q nh tr) as [t0 [h|e]] eqn:Eh; [|discriminate].
  apply traced_head_setup_ok in Eh. destruct Eh as (_ & -> & Hnh & HD).
  destruct (traced_split_heads h q _) as [t1 [q'|e]] eqn:E1; [|discriminate].
  apply traced_split_heads_ok in E1. destruct E1 as [_ ->].
  destruct (traced_split_heads h k _) as [t2 [k'|e]] eqn:E2; [|discriminate].
  apply traced_split_heads_ok in E2. destruct E2 as [_ ->].
  destruct (traced_split_heads h v _) as [t3 [v'|e]] eqn:E3; [|discriminate].
  apply traced_split_heads_ok in E3. destruct E3 as [_ ->].
  destruct (DotProductAttention q' k' v' mask dropout mode rng _)
    as [t4 [out|e]] eqn:Ea; [|discriminate].
  apply attention_returns in Ea. destruct Ea as [Hd ->].
  destruct (traced_join_heads h out _) as [t5 [res'|e]] eqn:Ej; [|discriminate].
  apply traced_join_heads_ok in Ej. destruct Ej as [_ ->].
  generalize (weights_events mask) (dropout_events dropout mode). intros we de.
  intros H. injection H as <- _ <-.
  split; [reflexivity|]. split; [assumption|]. split; [assumption|].
  split; [assumption|]. rewrite <- !app_assoc. reflexivity.
Qed.

Lemma multi_head_returns_witness :
  let res := NdArray [1; 1; 2] [0; 2 / 0.75]%float in
  let tr' := [EvShape; EvReshape; EvTranspose; EvReshape; EvTranspose;
              EvReshape; EvTranspose;
              EvShape; EvSwapaxes; EvMatmul; EvSqrt; EvDivide; EvLogsumexp;
              EvSubtract; EvExp; EvBernoulli; EvDivide; EvWhere; EvMatmul;
              EvTranspose; EvReshape] in
  PureMultiHeadedAttention (C:=bool) one_token one_token one_token None 2
    (Some 0.25%float) "train" (Some 3) [] = (tr', Ok (res, None))
  /\ @None (ndarray bool) = None
  /\ 2%Z <> 0%Z
  /\ (exists D, np_shape_at one_token (-1) = Ok D /\ (Z.of_nat D mod 2 = 0)%Z)
  /\ (exists d, Some 0.25%float = Some d /\ PrimFloat.leb 1 d = false)
  /\ tr' = [] ++ [EvShape] ++ split_events ++ split_events ++ split_events
             ++ weights_events (@None (ndarray bool))
             ++ dropout_events (Some 0.25%float) "train" ++ [EvMatmul]
             ++ join_events.
Proof.
  intros res tr'.
  assert (H : PureMultiHeadedAttention (C:=bool) one_token one_token one_token None 2
                (Some 0.25%float) "train" (Some 3) [] = (tr', Ok (res, None))).
  { vm_compute. reflexivity. }
  split; [exact H|].
  apply (multi_head_returns (C:=bool) one_token one_token one_token None 2
           (Some 0.25%float) "train" (Some 3) [] tr' res None H).
Defined.

(** X18.  [DotProductAttention] calls the Bernoulli sampler only in mode
    ['train'] with a dropout rate [d] such that [d > 0.0] is true and
    [d >= 1.0] is false: whether the call returns or raises, in any other
    mode, with a zero, negative or NaN rate, with a rate of 1 or more, or with
    no rate, nothing is sampled. *)
Theorem sampling_only_in_training
    {A K C : Type} {dt : Dtype A} {dc : Dtype C} {be : Backend A K}
    (q k v : ndarray A) (mask : option (ndarray C))
    (dropout : option float) (mode : string) (rng : option K)
    (tr' : list event) (r : result (ndarray A)) :
  DotProductAttention q k v mask dropout mode rng [] = (tr', r) ->
  In EvBernoulli tr' ->
  mode = "train"%string
  /\ exists d, dropout = Some d
       /\ PrimFloat.ltb 0 d = true /\ PrimFloat.leb 1 d = false.
Proof.
  unfold DotProductAttention, tbind, lift.
  destruct (attention_weights q k mask []) as [tr1 [w|e]] eqn:Ew.
  2:{ intros H. injection H as <- _. intros Hin.
      apply attention_weights_no_sampling in Ew. destruct Ew as (evs & -> & Hno).
      contradiction. }
  apply attention_weights_no_sampling in Ew. destruct Ew as (evs & -> & Hno).
  cbn [app].
  destruct dropout as [d|]; cbn [py_ge].
  2:{ intros H. injection H as <- _. intros Hin. contradiction. }
  destruct (PrimFloat.leb 1 d) eqn:Hd.
  { unfold traise. intros H. injection H as <- _. intros Hin. contradiction. }
  unfold apply_dropout.
  destruct (PrimFloat.ltb 0 d) eqn:Hpos; cbn [andb].
  - destruct (String.eqb_spec mode "train") as [->|Hm].
    + intros _ _. split; [reflexivity|]. eauto.
    + unfold tret, call. intros H. injection H as <- _. intros Hin.
      apply in_app_or in Hin. destruct Hin as [Hin|[Hin|[]]];
        [contradiction|discriminate].
  - unfold tret, call. intros H. injection H as <- _. intros Hin.
    apply in_app_or in Hin. destruct Hin as [Hin|[Hin|[]]];
      [contradiction|discriminate].
Qed.

Lemma sampling_only_in_training_witness :
  let tr' := [EvShape; EvSwapaxes; EvMatmul; EvSqrt; EvDivide; EvLogsumexp;
              EvSubtract; EvExp; EvBernoulli] in
  DotProductAttention (C:=bool) one_token one_token one_token None
    (Some 0.25%float) "train" None [] = (tr', Raise TypeError)
  /\ In EvBernoulli tr'
  /\ "train"%string = "train"%string
  /\ exists d, Some 0.25%float = Some d
       /\ PrimFloat.ltb 0 d = true /\ PrimFloat.leb 1 d = false.
Proof.
  intros tr'.
  assert (H : DotProductAttention (C:=bool) one_token one_token one_token None
                (Some 0.25%float) "train" None [] = (tr', Raise TypeError)).
  { vm_compute. reflexivity. }
  assert (Hin : In EvBernoulli tr').
  { do 8 right. left. reflexivity. }
  split; [exact H|]. split; [exact Hin|].
  apply (sampling_only_in_training (C:=bool) one_token one_token one_token None
           (Some 0.25%float) "train" None tr' (Raise TypeError) H Hin).
Defined.

(** * The causal mask applied to the attention scores *)

Lemma broadcast_shapes_causal (B H n : nat) :
  broadcast_shapes [1; n; n] [B; H; n; n] = Some [B; H; n; n].
Proof.
  unfold broadcast_shapes. cbn [rev app broadcast_rev].
  rewrite !Nat.eqb_refl. cbn [option_map rev app].
  destruct (Nat.eqb_spec 1 H); subst; reflexivity.
Qed.

(** X19.  [CausalMask] used as the mask of the attention scores: for scores
    of shape [(batch, heads, n, n)], the masking step [np.where(mask, dots,
    fill)] keeps the score of query position [i] for key position [j] when
    [j <= i] and replaces it by the fill value ([-1e9] in the layer) when
    [j > i], for every batch entry and every head. *)
Theorem causal_mask_blocks_future {A C : Type} {dt : Dtype A} {dc : Dtype C}
    (x : ndarray C) (axis : Z) (dots : ndarray A) (fill : A) (B H n : nat) :
  np_shape_at x axis = Ok n ->
  shape dots = [B; H; n; n] ->
  exists (m : ndarray C) (masked : ndarray A),
    CausalMask x axis = Ok m
    /\ np_where m dots fill = Ok masked
    /\ shape masked = [B; H; n; n]
    /\ forall b h i j, b < B -> h < H -> i < n -> j < n ->
         get masked [b; h; i; j]
         = Some (if j <=? i then get0 dots [b; h; i; j] else fill).
Proof.
  intros Hn Hs. unfold CausalMask. rewrite Hn. cbn [rbind].
  rewrite tril_ones.
  eexists. eexists. split; [reflexivity|].
  unfold np_where. rewrite shape_tabulate, Hs, broadcast_shapes_causal.
  split; [reflexivity|]. split; [reflexivity|].
  intros b h i j Hb Hh Hi Hj.
  rewrite get_tabulate by solve_bounds.
  rewrite (bcast_index_self [B; H; n; n]) by solve_bounds.
  assert (E : bcast_index [1; n; n] [b; h; i; j] = [0; i; j]).
  { unfold bcast_index. cbn.
    destruct (Nat.eqb_spec n 1); repeat f_equal; lia. }
  rewrite E. unfold get0 at 1. rewrite getd_tabulate by solve_bounds.
  cbn [lower_triangle].
  destruct (j <=? i); [rewrite truthy_one|rewrite truthy_zero]; reflexivity.
Qed.

Lemma causal_mask_blocks_future_witness :
  let x := NdArray [1; 2] [7; 8]%Z in
  let dots := NdArray [1; 1; 2; 2] [1; 2; 3; 4]%float in
  exists (m : ndarray Z) (masked : ndarray float),
    CausalMask x (-1) = Ok m
    /\ np_where m dots (-1e9)%float = Ok masked
    /\ shape masked = [1; 1; 2; 2]
    /\ forall b h i j, b < 1 -> h < 1 -> i < 2 -> j < 2 ->
         get masked [b; h; i; j]
         = Some (if j <=? i then get0 dots [b; h; i; j] else (-1e9)%float).
Proof.
  intros x dots.
  apply (causal_mask_blocks_future x (-1) dots (-1e9)%float 1 1 2); reflexivity.
Defined.
